(** * generate_catalog_index.py: a shallow embedding and its properties

    The script turns the OCR text of catalogue pages into one record per
    page (title, products, keywords, summary, section) and a per-section
    index.  The embedding follows the script function by function.

    - A Python [str] is a list of Unicode code points ([N]).
    - CPython's whitespace table ([str.isspace], [\s], [str.strip]) is
      written out.  The case and letter tables ([str.isalpha],
      [str.isupper], [str.isalnum], [str.upper], [str.lower]) are a
      parameter [unicode_db] of every function that consults them: general
      theorems hold for any table, and [ascii_db] runs the functions on
      ASCII text.
    - The regular expressions of the script are terms of a small
      backtracking matcher with the greedy, leftmost semantics of [re].
    - [dict] and [set] values are [gmap] and [gset]. *)

From Stdlib Require Import ZArith NArith List Bool Lia String Ascii DecimalString.
From Stdlib Require Decimal DecimalPos.
From stdpp Require Import gmap sorting.

Local Open Scope N_scope.

(** ** Strings *)

Abbreviation char := N (only parsing).
Abbreviation str := (list N) (only parsing).

(** A string literal of the script (ASCII only; other characters are
    spelled as code points). *)
Definition lit (s : string) : str := map N_of_ascii (list_ascii_of_string s).

(** U+2013, the dash of the title and range formats. *)
Definition en_dash : N := 8211.

(** [Py_UNICODE_ISSPACE]: the characters [str.strip], [str.isspace] and the
    [\s] class of [re] treat as whitespace. *)
Definition isspace (c : N) : bool :=
  ((9 <=? c) && (c <=? 13)) || ((28 <=? c) && (c <=? 32))
  || (c =? 133) || (c =? 160) || (c =? 5760)
  || ((8192 <=? c) && (c <=? 8202))
  || (c =? 8232) || (c =? 8233) || (c =? 8239) || (c =? 8287) || (c =? 12288).

Definition in_range (lo hi c : N) : bool := (lo <=? c) && (c <=? hi).

(** ASCII ranges used by the character classes of the patterns. *)
Definition is_AZ : N -> bool := in_range 65 90.
Definition is_az : N -> bool := in_range 97 122.
Definition is_09 : N -> bool := in_range 48 57.

(** The Unicode tables the script consults through [str] methods. *)
Record unicode_db := {
  isalpha : N -> bool;
  isupper : N -> bool;
  isalnum : N -> bool;
  upper : str -> str;
  lower : str -> str }.

(** The tables restricted to ASCII: letters are [A-Za-z], digits [0-9],
    every other code point is caseless and not alphanumeric.  They agree
    with CPython on ASCII text and on the en dash. *)
Definition ascii_db : unicode_db := {|
  isalpha := fun c => is_AZ c || is_az c;
  isupper := is_AZ;
  isalnum := fun c => is_AZ c || is_az c || is_09 c;
  upper := map (fun c => if is_az c then c - 32 else c);
  lower := map (fun c => if is_AZ c then c + 32 else c) |}.

(** [s.startswith(p)] *)
Fixpoint startswith (s p : str) {struct p} : bool :=
  match p, s with
  | [], _ => true
  | a :: p', b :: s' => (a =? b) && startswith s' p'
  | _ :: _, [] => false
  end.

(** [sub in s] *)
Fixpoint str_in (sub s : str) : bool :=
  startswith s sub ||
  match s with
  | [] => false
  | _ :: s' => str_in sub s'
  end.

(** [s.split(sep)] for a one-character separator. *)
Fixpoint split (sep : N) (s : str) : list str :=
  match s with
  | [] => [[]]
  | c :: s' =>
      if c =? sep then [] :: split sep s'
      else match split sep s' with
           | l :: ls => (c :: l) :: ls
           | [] => [[c]]
           end
  end.

Fixpoint lstrip (s : str) : str :=
  match s with
  | c :: s' => if isspace c then lstrip s' else s
  | [] => []
  end.

Definition rstrip (s : str) : str := rev (lstrip (rev s)).

(** [s.strip()] *)
Definition strip (s : str) : str := rstrip (lstrip s).

(** [s.replace(old, new)] for a non-empty [old]: occurrences are replaced
    left to right without overlap; [skip] counts the characters of an
    occurrence still to be passed over. *)
Fixpoint replace_from (old new s : str) (skip : nat) : str :=
  match s with
  | [] => []
  | c :: s' =>
      match skip with
      | S n => replace_from old new s' n
      | O => if startswith s old
             then new ++ replace_from old new s' (length old - 1)
             else c :: replace_from old new s' 0
      end
  end.

Definition replace (old new s : str) : str := replace_from old new s 0.

(** [sep.join(parts)] *)
Fixpoint join (sep : str) (parts : list str) : str :=
  match parts with
  | [] => []
  | [p] => p
  | p :: rest => p ++ sep ++ join sep rest
  end.

(** [str(n)] for an [int] *)
Definition str_of_Z (z : Z) : str := lit (NilZero.string_of_int (Z.to_int z)).

(** The format [{n:04d}]: decimal digits padded with zeros to width 4, the
    sign counted in the width. *)
Definition format_04d (z : Z) : str :=
  let digits := str_of_Z (Z.abs z) in
  let sign := if (z <? 0)%Z then lit "-" else [] in
  sign ++ repeat 48 (4 - length sign - length digits)%nat ++ digits.

(** Python's order on [str]: lexicographic on code points. *)
Fixpoint str_le (a b : str) : Prop :=
  match a, b with
  | [], _ => True
  | _ :: _, [] => False
  | x :: a', y :: b' => x < y \/ (x = y /\ str_le a' b')
  end.

Definition str_lt (a b : str) : Prop := str_le a b /\ a <> b.


(** ** Regular expressions

    The fragment of [re] syntax the script uses.  [Rep p n] is the greedy
    repetition [[p]{n,}] of a character class ([+] is [Rep p 1]); [Lit],
    [Alt] and [Cat] are literal text, ordered alternation and sequence;
    [WordB] is the boundary assertion [\b]. *)
Inductive regex :=
| Class (p : N -> bool)
| Rep (p : N -> bool) (min : nat)
| Lit (l : str)
| Alt (r1 r2 : regex)
| Cat (r1 r2 : regex)
| WordB.

(** A matcher state is the character before the position ([None] at the
    start of the string), the text from the position on, and the number of
    characters matched so far.  A continuation gives the length of the
    whole match, or [None] to make the matcher backtrack. *)
Definition cont := option N -> str -> nat -> option nat.

(** Greedy repetition of a class: go as far as the class allows, then hand
    over to the continuation from the longest repetition down to [min]. *)
Fixpoint rep_match (p : N -> bool) (min : nat) (prev : option N) (s : str)
    (n : nat) (k : cont) : option nat :=
  let stop := match min with O => k prev s n | S _ => None end in
  match s with
  | c :: s' =>
      if p c then
        match rep_match p (Nat.pred min) (Some c) s' (S n) k with
        | Some r => Some r
        | None => stop
        end
      else stop
  | [] => stop
  end.

Fixpoint lit_match (l : str) (prev : option N) (s : str) (n : nat) (k : cont)
    : option nat :=
  match l, s with
  | [], _ => k prev s n
  | a :: l', c :: s' => if a =? c then lit_match l' (Some c) s' (S n) k else None
  | _ :: _, [] => None
  end.

Section Matcher.
(** [\w]: alphanumeric or underscore. *)
Variable isword : N -> bool.

Definition word_at (c : option N) : bool :=
  match c with Some x => isword x | None => false end.

Fixpoint re_match (r : regex) (prev : option N) (s : str) (n : nat) (k : cont)
    : option nat :=
  match r with
  | Class p =>
      match s with
      | c :: s' => if p c then k (Some c) s' (S n) else None
      | [] => None
      end
  | Rep p min => rep_match p min prev s n k
  | Lit l => lit_match l prev s n k
  | Alt r1 r2 =>
      match re_match r1 prev s n k with
      | Some r => Some r
      | None => re_match r2 prev s n k
      end
  | Cat r1 r2 => re_match r1 prev s n (fun prev' s' n' => re_match r2 prev' s' n' k)
  | WordB => if xorb (word_at prev) (word_at (head s)) then k prev s n else None
  end.

(** Length of the match of [r] that starts at the position, if any. *)
Definition match_here (r : regex) (prev : option N) (s : str) : option nat :=
  re_match r prev s 0%nat (fun _ _ n => Some n).

(** [re.findall]: the matches from left to right, without overlap.  After
    a match of [S n] characters the next [n] positions are passed over
    ([skip]); after an empty match the scan moves on by one character. *)
Fixpoint findall_from (r : regex) (prev : option N) (s : str) (skip : nat)
    : list str :=
  match s with
  | [] =>
      match skip, match_here r prev [] with
      | O, Some _ => [[]]
      | _, _ => []
      end
  | c :: s' =>
      match skip with
      | S n => findall_from r (Some c) s' n
      | O =>
          match match_here r prev s with
          | Some m => take m s :: findall_from r (Some c) s' (Nat.pred m)
          | None => findall_from r (Some c) s' 0
          end
      end
  end.

Definition findall (r : regex) (s : str) : list str := findall_from r None s 0.

(** [re.sub] with a literal replacement. *)
Fixpoint sub_from (r : regex) (repl : str) (prev : option N) (s : str)
    (skip : nat) : str :=
  match s with
  | [] =>
      match skip, match_here r prev [] with
      | O, Some _ => repl
      | _, _ => []
      end
  | c :: s' =>
      match skip with
      | S n => sub_from r repl (Some c) s' n
      | O =>
          match match_here r prev s with
          | Some (S n) => repl ++ sub_from r repl (Some c) s' n
          | Some O => repl ++ c :: sub_from r repl (Some c) s' 0
          | None => c :: sub_from r repl (Some c) s' 0
          end
      end
  end.

Definition sub (r : regex) (repl s : str) : str := sub_from r repl None s 0.
End Matcher.

(** [\s+] *)
Definition re_spaces : regex := Rep isspace 1.

(** ** Section mapping *)

Local Open Scope Z_scope.

(** [SECTION_MAPPING], based on the catalogue's table of contents. *)
Definition SECTION_MAPPING : list (str * Z * Z) :=
  [ (lit "Fastener_Anchoring_Systems", 3, 73);
    (lit "Fastening_Systems", 74, 91);
    (lit "Material_Handling_Storage", 92, 99);
    (lit "Hand_Tools", 100, 119);
    (lit "Measuring_Marking", 120, 131);
    (lit "Ladders", 132, 134);
    (lit "Cleaning_Supplies", 135, 143);
    (lit "Jobsite_Supplies", 144, 171);
    (lit "Building_Materials", 172, 184);
    (lit "Adhesives_Caulks", 185, 188);
    (lit "Power_Tools_Equipment_Accessories", 189, 246);
    (lit "Safety_Equipment_Supplies", 247, 298) ].

Definition Unknown : str := lit "Unknown".

(** [section_name.replace("_", " ")] *)
Definition display_name (section_name : str) : str :=
  replace (lit "_") (lit " ") section_name.

(** The label ["Pages {range_start}–{range_end}"] of the group of ten pages
    around [page_num]. *)
Definition page_range_group (page_num : Z) : str :=
  let range_start := (page_num / 10) * 10 in
  let range_end := range_start + 9 in
  lit "Pages " ++ str_of_Z range_start ++ [en_dash] ++ str_of_Z range_end.

(** The loop of [get_section_info] over a table: the first range that
    contains the page returns. *)
Fixpoint section_lookup (table : list (str * Z * Z)) (page_num : Z) : str * str :=
  match table with
  | (section_name, start, end_) :: rest =>
      if (start <=? page_num) && (page_num <=? end_)
      then (display_name section_name, page_range_group page_num)
      else section_lookup rest page_num
  | [] => (Unknown, Unknown)
  end.

Definition get_section_info (page_num : Z) : str * str :=
  section_lookup SECTION_MAPPING page_num.

(** ** Text normalisation *)

(** [clean_text].  The pattern has no [\b], so the word table of the matcher
    is immaterial. *)
Definition clean_text (text : str) : str :=
  let text := sub (fun _ => false) re_spaces (lit " ") text in
  let text := replace [12%N] (lit " ") text in
  strip text.

(** ** Titles *)

Local Open Scope nat_scope.

(** The lines of [extract_title]: the non-blank lines, stripped. *)
Definition title_lines (text : str) : list str :=
  map strip
    (List.filter (fun line => match strip line with [] => false | _ => true end)
       (split 10%N text)).

(** The uppercase test of a heading:
    [sum(c.isupper() for c in line if c.isalpha())
       / max(len([c for c in line if c.isalpha()]), 1) > 0.6].
    The quotient [u / a] of two integers is correctly rounded, and the
    constant is the double nearest to 3/5; for [a] below 2^50 a quotient
    other than 3/5 is further from it than the rounding error, so the float
    comparison holds exactly when [5 * u > 3 * a]. *)
Definition mostly_upper (U : unicode_db) (line : str) : bool :=
  let uppers := length (List.filter (isupper U) (List.filter (isalpha U) line)) in
  let alphas := Nat.max (length (List.filter (isalpha U) line)) 1 in
  3 * alphas <? 5 * uppers.

(** Patterns that rule a line out as a title. *)
Definition title_skips : list str :=
  [ lit "CAT #"; lit "PART NO"; lit "SKU"; lit "DESCRIPTION"; lit "QTY"; lit "BOX" ].

Definition is_non_title (U : unicode_db) (line : str) : bool :=
  existsb (fun skip => str_in skip (upper U line)) title_skips.

Definition is_heading (U : unicode_db) (line : str) : bool :=
  (5 <? length line) && mostly_upper U line && negb (is_non_title U line).

(** The separator [" – "]. *)
Definition dash_sep : str := lit " " ++ [en_dash] ++ lit " ".

Definition extract_title (U : unicode_db) (text : str) (page_num : Z) : str :=
  let lines := title_lines text in
  let headings := map strip (List.filter (is_heading U) (take 30 lines)) in
  match headings with
  | _ :: _ =>
      let title := join dash_sep (take 2 headings) in
      if 80 <? length title then take 77 title ++ lit "..." else title
  | [] =>
      match List.find (fun line => (10 <? length line)
                                   && negb (startswith line (lit "CAT")))
                      (take 20 lines) with
      | Some line => take 80 line
      | None =>
          let section := fst (get_section_info page_num) in
          section ++ dash_sep ++ lit "Page " ++ str_of_Z page_num
      end
  end.

(** ** Products *)

(** The alternatives a product phrase ends in. *)
Definition product_nouns : regex :=
  Alt (Lit (lit "Gun")) (Alt (Lit (lit "Nailer")) (Alt (Lit (lit "Drill"))
  (Alt (Lit (lit "Saw")) (Alt (Lit (lit "Tool")) (Alt (Lit (lit "Anchor"))
  (Alt (Lit (lit "Fastener")) (Alt (Lit (lit "Bit")) (Alt (Lit (lit "System"))
  (Alt (Lit (lit "Kit")) (Lit (lit "Set"))))))))))).

(** [product_patterns]; each has one group that spans the whole pattern, so
    [re.findall] returns the matched text. *)
Definition product_patterns : list regex :=
  [ (* [A-Z][A-Za-z0-9\s\-&/]+(?:Gun|...|Set) *)
    Cat (Class is_AZ)
      (Cat (Rep (fun c => is_AZ c || is_az c || is_09 c || isspace c
                          || (c =? 45)%N || (c =? 38)%N || (c =? 47)%N) 1)
           product_nouns);
    (* [A-Z][A-Z\s]{5,} *)
    Cat (Class is_AZ) (Rep (fun c => is_AZ c || isspace c) 5);
    (* [A-Z0-9\-]{4,}[A-Z0-9] *)
    Cat (Rep (fun c => is_AZ c || is_09 c || (c =? 45)%N) 4)
        (Class (fun c => is_AZ c || is_09 c)) ].

(** Markers of a table header line. *)
Definition table_headers : list str :=
  [ lit "CAT #"; lit "PART NO"; lit "SKU"; lit "DESCRIPTION"; lit "QTY"; lit "SIZE" ].

Definition is_table_header (U : unicode_db) (line : str) : bool :=
  existsb (fun header => str_in header (upper U line)) table_headers.

(** The body of the innermost loop: one match of one pattern. *)
Definition add_match (products : list str) (m : str) : list str :=
  let m := strip m in
  if (4 <? length m) && (length m <? 60) then
    let m := sub (fun _ => false) re_spaces (lit " ") m in
    if decide (m ∈ products) then products else products ++ [m]
  else products.

(** The body of the loop over lines. *)
Definition scan_line (U : unicode_db) (products : list str) (line : str) : list str :=
  let line := strip line in
  if (length line <? 4) then products
  else if is_table_header U line then products
  else
    fold_left (fun products pattern =>
                 fold_left add_match (findall (fun _ => false) pattern line) products)
              product_patterns products.

(** All products found in the scanned lines, before the cap. *)
Definition all_products (U : unicode_db) (text : str) : list str :=
  fold_left (scan_line U) (take 50 (split 10%N text)) [].

Definition extract_products (U : unicode_db) (text : str) : list str :=
  take 10 (all_products U text).

(** ** Keywords *)

Fixpoint str_leb (a b : str) : bool :=
  match a, b with
  | [], _ => true
  | _ :: _, [] => false
  | x :: a', y :: b' => (x <? y)%N || ((x =? y)%N && str_leb a' b')
  end.

(** [sorted] on a list of [str]. *)
Definition sorted (l : list str) : list str := merge_sort (fun a b => str_leb a b) l.

Definition common_terms : list str :=
  [ lit "drill"; lit "saw"; lit "nailer"; lit "hammer"; lit "wrench"; lit "pliers";
    lit "screwdriver";
    lit "anchor"; lit "fastener"; lit "bolt"; lit "screw"; lit "nail"; lit "pin";
    lit "rivet";
    lit "cordless"; lit "electric"; lit "pneumatic"; lit "manual"; lit "power tool";
    lit "concrete"; lit "steel"; lit "wood"; lit "metal"; lit "plastic";
    lit "safety"; lit "protective"; lit "gloves"; lit "glasses"; lit "mask";
    lit "measuring"; lit "tape"; lit "level"; lit "square";
    lit "ladder"; lit "scaffold"; lit "platform";
    lit "cleaning"; lit "supplies"; lit "chemical";
    lit "storage"; lit "box"; lit "cabinet"; lit "cart";
    lit "dewalt"; lit "milwaukee"; lit "hilti"; lit "stanley"; lit "red head" ].

(** [\b[a-z]{4,}\b] *)
Definition word_pattern : regex := Cat WordB (Cat (Rep is_az 4) WordB).

(** [\w] of a Unicode pattern: alphanumeric or underscore. *)
Definition isword (U : unicode_db) (c : N) : bool := isalnum U c || (c =? 95)%N.

(** [re.findall(r'\b[a-z]{4,}\b', s.lower())] *)
Definition lower_words (U : unicode_db) (s : str) : list str :=
  findall (isword U) word_pattern (lower U s).

Definition title_stop_words : list str := [ lit "page"; lit "pages"; lit "catalog" ].

(** The set [keywords] when the loops of [extract_keywords] are over. *)
Definition keyword_set (U : unicode_db) (text title : str) (products : list str)
    : gset str :=
  let text_lower := lower U text in
  let keywords : gset str :=
    fold_left (fun keywords term =>
                 if str_in term text_lower then keywords ∪ {[ term ]} else keywords)
              common_terms ∅ in
  let title_words := lower_words U title in
  let keywords :=
    keywords ∪ list_to_set
      (List.filter (fun word => negb (bool_decide (word ∈ title_stop_words)))
                   title_words) in
  fold_left (fun keywords product =>
               keywords ∪ list_to_set (take 3 (lower_words U product)))
            products keywords.

Definition extract_keywords (U : unicode_db) (text title : str) (products : list str)
    : list str :=
  take 15 (sorted (elements (keyword_set U text title products))).

(** ** Summaries *)

Definition generate_summary (U : unicode_db) (text title : str) (products : list str)
    : str :=
  let section_info :=
    match products with
    | [] => []
    | _ :: _ =>
        let product_list :=
          if length products <=? 3 then join (lit ", ") products
          else join (lit ", ") (take 3 products) ++ lit ", and "
               ++ str_of_Z (Z.of_nat (length products) - 3) ++ lit " more" in
        lit "Features " ++ product_list ++ lit ". "
    end in
  let text_lower := lower U text in
  let content_type :=
    (if str_in (lit "specifications") text_lower || str_in (lit "spec") text_lower
     then [lit "specifications"] else [])
    ++ (if str_in (lit "accessories") text_lower then [lit "accessories"] else [])
    ++ (if str_in (lit "model") text_lower || str_in (lit "cat #") text_lower
        then [lit "product listings"] else [])
    ++ (if str_in (lit "application") text_lower || str_in (lit "use") text_lower
        then [lit "application details"] else []) in
  let content_desc :=
    match content_type with
    | [] => lit "product information"
    | _ :: _ => join (lit " and ") content_type
    end in
  section_info ++ lit "This page includes " ++ content_desc ++ lit ".".

(** ** Pages and the run *)

Record entry := {
  page : Z;
  filename : str;
  thumbnail : str;
  section : str;
  pageRangeGroup : str;
  title : str;
  products : list str;
  keywords : list str;
  summary : str }.

(** [process_pdf], given the text [pdftotext] printed for the page (the
    empty string when the tool failed). *)
Definition process_pdf (U : unicode_db) (raw : str) (page_num : Z) : entry :=
  let text := clean_text raw in
  let '(section, page_range) := get_section_info page_num in
  let title := extract_title U text page_num in
  let products := extract_products U text in
  let keywords := extract_keywords U text title products in
  let summary := generate_summary U text title products in
  {| page := page_num;
     filename := lit "ocr_trim_page_" ++ format_04d page_num ++ lit ".pdf";
     thumbnail := lit "thumbnails/page_" ++ format_04d page_num ++ lit ".png";
     section := section;
     pageRangeGroup := page_range;
     title := title;
     products := products;
     keywords := keywords;
     summary := summary |}.

(** [pdf_files.sort(key=lambda x: x[0])]: a stable sort on the page number. *)
Fixpoint insert_by_page (x : Z * str) (l : list (Z * str)) : list (Z * str) :=
  match l with
  | [] => [x]
  | y :: l' => if (fst x <? fst y)%Z then x :: l else y :: insert_by_page x l'
  end.

Definition sort_by_page (l : list (Z * str)) : list (Z * str) :=
  fold_left (fun acc x => insert_by_page x acc) l [].

(** One round of the loop over the files: the entry is appended to
    [catalog_entries] and the page to its list in the
    [defaultdict(list)] [section_groups]. *)
Definition process_step (U : unicode_db)
    (st : list entry * gmap str (list Z)) (file : Z * str)
    : list entry * gmap str (list Z) :=
  let '(catalog_entries, section_groups) := st in
  let '(page_num, raw) := file in
  let entry := process_pdf U raw page_num in
  (catalog_entries ++ [entry],
   <[ section entry := default [] (section_groups !! section entry) ++ [page_num] ]>
     section_groups).

Record section_entry := { range : str; pages : list Z }.

(** One round of the loop that fills [section_index]. *)
Definition index_step (section_groups : gmap str (list Z))
    (section_index : gmap str section_entry) (row : str * Z * Z)
    : gmap str section_entry :=
  let '(section_name, start, end_) := row in
  let display_name := display_name section_name in
  <[ display_name :=
       {| range := str_of_Z start ++ [en_dash] ++ str_of_Z end_;
          pages := default [] (section_groups !! display_name) |} ]>
    section_index.

Definition build_section_index (table : list (str * Z * Z))
    (section_groups : gmap str (list Z)) : gmap str section_entry :=
  fold_left (index_step section_groups) table ∅.

(** [main], from the (page number, extracted text) pairs of the files found
    to the two structures it writes. *)
Definition main (U : unicode_db) (found : list (Z * str))
    : list entry * gmap str section_entry :=
  let pdf_files := sort_by_page found in
  let '(catalog_entries, section_groups) :=
    fold_left (process_step U) pdf_files ([], ∅) in
  (catalog_entries, build_section_index SECTION_MAPPING section_groups).

(** ** Definitions used in the statements and proofs *)

(** The range of a table row contains the page. *)
Definition contains_page (page_num : Z) (r : str * Z * Z) : Prop :=
  (r.1.2 <= page_num <= r.2)%Z.

(** Length of the longest prefix inside a class. *)
Fixpoint run (p : N -> bool) (s : str) : nat :=
  match s with
  | c :: s' => if p c then S (run p s') else 0
  | [] => 0
  end.

(** What [re.sub(r'\s+', ' ', s)] computes, read from left to right:
    [in_run] tells whether the previous character was whitespace. *)
Fixpoint squeeze (in_run : bool) (s : str) : str :=
  match s with
  | [] => []
  | c :: s' =>
      if isspace c
      then if in_run then squeeze true s' else 32%N :: squeeze true s'
      else c :: squeeze false s'
  end.

(** Single-spaced text: every whitespace character is a space and no
    space follows a space ([after_space]: the text comes after one). *)
Fixpoint single_spaced (after_space : bool) (s : str) : Prop :=
  match s with
  | [] => True
  | c :: s' =>
      if isspace c then c = 32%N /\ after_space = false /\ single_spaced true s'
      else single_spaced false s'
  end.

(** A string [strip] leaves alone. *)
Definition stripped (s : str) : Prop := lstrip s = s /\ lstrip (rev s) = rev s.

(** The continuation that ends a match. *)
Definition k_len : cont := fun _ _ n => Some n.

(** The last resort of [extract_title]. *)
Definition fallback_title (page_num : Z) : str :=
  (get_section_info page_num).1 ++ dash_sep ++ lit "Page " ++ str_of_Z page_num.

(** The title of a text that is a single stripped line. *)
Definition title_of_line (U : unicode_db) (line : str) (page_num : Z) : str :=
  if is_heading U line then
    if 80 <? length line then take 77 line ++ lit "..." else line
  else if (10 <? length line) && negb (startswith line (lit "CAT")) then take 80 line
  else fallback_title page_num.

(** The heading of the example page. *)
Definition HEAVY : str := lit "HEAVY DUTY CONCRETE ANCHOR SYSTEM".

(** The section names of a table, as displayed. *)
Definition display_names (table : list (str * Z * Z)) : list str :=
  map (fun r => display_name r.1.1) table.

(** The pages of a run that resolve to a section, in the order of the run. *)
Definition pages_of (section : str) (pdf_files : list (Z * str)) : list Z :=
  List.filter (fun page_num => bool_decide ((get_section_info page_num).1 = section))
              (map fst pdf_files).

(** The title words that may become keywords. *)
Definition title_keywords (U : unicode_db) (title : str) : list str :=
  List.filter (fun word => negb (bool_decide (word ∈ title_stop_words)))
              (lower_words U title).

(** A page of two lines: a heading, then body text. *)
Definition two_line_page : str :=
  lit "HEAVY DUTY ANCHORS" ++ [10%N]
  ++ lit "this line is lowercase body text of the page".

(** A page of 31 lines: thirty times the letter A, then a word. *)
Definition long_page : str :=
  concat (repeat (lit "A" ++ [10%N]) 30) ++ lit "ZEBRA".

(** A text with eighteen vocabulary terms. *)
Definition many_terms : str :=
  lit "Drill saw nailer hammer wrench pliers screwdriver anchor fastener bolt nail pin rivet cordless electric pneumatic manual".

(** No page lies in two rows of the table. *)
Fixpoint disjoint_rows (table : list (str * Z * Z)) : bool :=
  match table with
  | [] => true
  | (_, s, e) :: rest =>
      forallb (fun r => (e <? r.1.2)%Z || (r.2 <? s)%Z) rest && disjoint_rows rest
  end.

(** The pages inside a range, in the order of the run. *)
Definition pages_between (s e : Z) (pdf_files : list (Z * str)) : list Z :=
  List.filter (fun page_num => (s <=? page_num)%Z && (page_num <=? e)%Z)
              (map fst pdf_files).

(** A character that is not whitespace. *)
Definition nonspace (c : N) : bool := negb (isspace c).

(** [w] occurs in [s] as a run of consecutive characters. *)
Definition infix (w s : str) : Prop := exists a b, s = a ++ w ++ b.

(** The four content signals [generate_summary] reads off the text. *)
Definition summary_signals (U : unicode_db) (text : str) : bool * bool * bool * bool :=
  let text_lower := lower U text in
  (str_in (lit "spec") text_lower,
   str_in (lit "accessories") text_lower,
   str_in (lit "model") text_lower || str_in (lit "cat #") text_lower,
   str_in (lit "application") text_lower || str_in (lit "use") text_lower).

(** The files of a page, in the order given. *)
Definition files_of_page (page_num : Z) (files : list (Z * str)) : list (Z * str) :=
  List.filter (fun file => (file.1 =? page_num)%Z) files.

(** The characters a product pattern can start with: [A-Z], [0-9], [-]. *)
Definition product_start (c : N) : bool := is_AZ c || is_09 c || (c =? 45)%N.

(** ** File names

    The loop of [main] over the files found reads the page number off the
    file name: [re.search(r'ocr_trim_page_(\d+)\.pdf', name)] and
    [int(match.group(1))].  The class [\d] and [int] follow the table of
    decimal digits of Unicode, a parameter as the case tables are. *)

(** The value of an ASCII digit; the restriction of [Py_UNICODE_TODECIMAL]
    to ASCII. *)
Definition ascii_decimal (c : N) : option N :=
  if is_09 c then Some (c - 48)%N else None.

Definition isdecimal (D : N -> option N) (c : N) : bool :=
  match D c with Some _ => true | None => false end.

(** [int(s)] for a string of decimal digits. *)
Definition int_of_digits (D : N -> option N) (s : str) : Z :=
  Z.of_N (fold_left (fun acc c => 10 * acc + default 0 (D c))%N s 0%N).

(** [ocr_trim_page_(\d+)\.pdf] *)
Definition page_file_pattern (D : N -> option N) : regex :=
  Cat (Lit (lit "ocr_trim_page_")) (Cat (Rep (isdecimal D) 1) (Lit (lit ".pdf"))).

(** [re.search]: the text of the leftmost match. *)
Fixpoint search_from (iw : N -> bool) (r : regex) (prev : option N) (s : str)
    : option (str) :=
  match match_here iw r prev s with
  | Some m => Some (take m s)
  | None =>
      match s with
      | [] => None
      | c :: s' => search_from iw r (Some c) s'
      end
  end.

(** The page number of a file name, when the name has one.  The group of
    the pattern is the match without the 14 characters before the digits
    and the 4 after them. *)
Definition page_num_of_name (D : N -> option N) (name : str) : option Z :=
  match search_from (fun _ => false) (page_file_pattern D) None name with
  | Some m => Some (int_of_digits D (take (length m - 18) (drop 14 m)))
  | None => None
  end.

(** * Properties *)

(** ** The matcher on [\s+] and [clean_text] *)

Lemma rep_match_len p min prev s n :
  rep_match p min prev s n k_len = if min <=? run p s then Some (n + run p s) else None.
Proof.
  revert min prev n; induction s as [|c s IH]; intros min prev n; simpl.
  - destruct min; simpl; [f_equal; lia|reflexivity].
  - destruct (p c).
    + rewrite IH. destruct min as [|m]; simpl; [f_equal; lia|].
      destruct (m <=? run p s); [f_equal; lia|reflexivity].
    + destruct min; simpl; [f_equal; lia|reflexivity].
Qed.

Lemma match_here_spaces iw prev s :
  match_here iw re_spaces prev s =
    match run isspace s with O => None | S n => Some (S n) end.
Proof.
  unfold match_here, re_spaces; simpl. fold k_len. rewrite rep_match_len.
  destruct (run isspace s); reflexivity.
Qed.

Lemma sub_spaces_squeeze iw s :
  forall prev,
    sub_from iw re_spaces (lit " ") prev s (run isspace s) = squeeze true s
    /\ sub_from iw re_spaces (lit " ") prev s 0 = squeeze false s.
Proof.
  induction s as [|c s IH]; intros prev.
  - cbn [sub_from run squeeze]. rewrite match_here_spaces. auto.
  - assert (H0 : sub_from iw re_spaces (lit " ") prev (c :: s) 0 = squeeze false (c :: s)).
    { cbn [sub_from]. rewrite match_here_spaces. cbn [run squeeze].
      destruct (isspace c).
      - destruct (IH (Some c)) as [-> _]. reflexivity.
      - destruct (IH (Some c)) as [_ ->]. reflexivity. }
    split; [|exact H0].
    cbn [run]. destruct (isspace c) eqn:Hc.
    + cbn [sub_from squeeze]. rewrite Hc. apply IH.
    + rewrite H0. cbn [squeeze]. rewrite Hc. reflexivity.
Qed.

Lemma sub_spaces iw s : sub iw re_spaces (lit " ") s = squeeze false s.
Proof. apply sub_spaces_squeeze. Qed.

Lemma single_spaced_weaken b s : single_spaced b s -> single_spaced false s.
Proof.
  destruct s as [|c s]; simpl; [auto|].
  destruct (isspace c); [|auto]. intros (-> & -> & H). auto.
Qed.

Lemma squeeze_single_spaced b s : single_spaced b (squeeze b s).
Proof.
  revert b; induction s as [|c s IH]; intros b; simpl; [exact I|].
  destruct (isspace c) eqn:Hc.
  - destruct b; [apply IH|]. simpl. split; [reflexivity|]. split; [reflexivity|apply IH].
  - simpl. rewrite Hc. apply IH.
Qed.

Lemma squeeze_fixed b s : single_spaced b s -> squeeze b s = s.
Proof.
  revert b; induction s as [|c s IH]; intros b; simpl; [reflexivity|].
  destruct (isspace c).
  - intros (-> & -> & H). f_equal. apply IH, H.
  - intros H. f_equal. apply IH, H.
Qed.

Lemma single_spaced_chars b s c :
  single_spaced b s -> c ∈ s -> isspace c = true -> c = 32%N.
Proof.
  revert b; induction s as [|x s IH]; intros b Hs Hin Hc.
  - inversion Hin.
  - simpl in Hs. apply elem_of_cons in Hin as [->|Hin].
    + rewrite Hc in Hs. apply Hs.
    + destruct (isspace x); [destruct Hs as (_ & _ & Hs)|]; eapply IH; eauto.
Qed.

Lemma single_spaced_app b s t : single_spaced b (s ++ t) -> single_spaced b s.
Proof.
  revert b; induction s as [|c s IH]; intros b; simpl; [auto|].
  destruct (isspace c); [|apply IH].
  intros (-> & -> & H). repeat split. eapply IH, H.
Qed.

Lemma single_spaced_lstrip b s : single_spaced b s -> single_spaced false (lstrip s).
Proof.
  revert b; induction s as [|c s IH]; intros b; [auto|].
  cbn [lstrip]. destruct (isspace c) eqn:Hc.
  - simpl. rewrite Hc. intros (_ & _ & H). eapply IH, H.
  - apply single_spaced_weaken.
Qed.

(** [lstrip] removes a whitespace prefix. *)
Lemma lstrip_split s : exists t, s = t ++ lstrip s /\ Forall (fun c => isspace c = true) t.
Proof.
  induction s as [|c s (t & Ht & Hall)]; [exists []; auto|].
  cbn [lstrip]. destruct (isspace c) eqn:Hc.
  - exists (c :: t). split; [simpl; congruence|constructor; auto].
  - exists []. auto.
Qed.

Lemma rstrip_split s : exists t, s = rstrip s ++ t /\ Forall (fun c => isspace c = true) t.
Proof.
  destruct (lstrip_split (rev s)) as (t & Ht & Hall). exists (rev t). split.
  - unfold rstrip. rewrite <- rev_app_distr, <- Ht, rev_involutive. reflexivity.
  - apply Forall_forall. intros c Hc. rewrite list_elem_of_In, <- in_rev, <- list_elem_of_In in Hc.
    rewrite Forall_forall in Hall. by apply Hall.
Qed.

Lemma lstrip_idem s : lstrip (lstrip s) = lstrip s.
Proof.
  induction s as [|c s IH]; [reflexivity|]. cbn [lstrip].
  destruct (isspace c) eqn:Hc; [exact IH|]. cbn [lstrip]. rewrite Hc. reflexivity.
Qed.

Lemma lstrip_head s : match lstrip s with c :: _ => isspace c = false | [] => True end.
Proof.
  induction s as [|c s IH]; [exact I|]. cbn [lstrip].
  destruct (isspace c) eqn:Hc; auto.
Qed.

Lemma strip_stripped s : stripped (strip s).
Proof.
  unfold stripped, strip. split.
  - pose proof (lstrip_head s) as Hh.
    destruct (rstrip_split (lstrip s)) as (t & Ht & Hall).
    destruct (lstrip s) as [|c w] eqn:Hw; [reflexivity|].
    destruct (rstrip (c :: w)) as [|c' p] eqn:Hp.
    + simpl in Ht. subst t. inversion Hall; congruence.
    + simpl in Ht. injection Ht as -> _. cbn [lstrip]. rewrite Hh. reflexivity.
  - unfold rstrip. rewrite rev_involutive. apply lstrip_idem.
Qed.

Lemma stripped_fixed s : stripped s -> strip s = s.
Proof.
  intros [H1 H2]. unfold strip, rstrip. rewrite H1, H2. apply rev_involutive.
Qed.

Lemma single_spaced_strip b s : single_spaced b s -> single_spaced false (strip s).
Proof.
  intros H. apply single_spaced_lstrip in H.
  destruct (rstrip_split (lstrip s)) as (t & Ht & _).
  unfold strip. rewrite Ht in H. eapply single_spaced_app, H.
Qed.

Lemma replace_absent c new s : c ∉ s -> replace [c] new s = s.
Proof.
  unfold replace. induction s as [|x s IH]; intros Hc; [reflexivity|].
  cbn [replace_from startswith].
  apply not_elem_of_cons in Hc as [Hx Hs].
  destruct (N.eqb_spec c x); [congruence|]. simpl. f_equal. auto.
Qed.

Lemma single_spaced_no_char b s c :
  single_spaced b s -> isspace c = true -> c <> 32%N -> c ∉ s.
Proof. intros Hs Hc Hne Hin. apply Hne. eapply single_spaced_chars; eauto. Qed.

(** [clean_text] without the machinery of [re]. *)
Lemma clean_text_squeeze text : clean_text text = strip (squeeze false text).
Proof.
  unfold clean_text. rewrite sub_spaces, replace_absent; [reflexivity|].
  eapply single_spaced_no_char; [apply squeeze_single_spaced|reflexivity|discriminate].
Qed.

Lemma clean_text_single_spaced text : single_spaced false (clean_text text).
Proof.
  rewrite clean_text_squeeze. eapply single_spaced_strip, squeeze_single_spaced.
Qed.

Lemma clean_text_stripped text : stripped (clean_text text).
Proof. rewrite clean_text_squeeze. apply strip_stripped. Qed.

(** C7: [clean_text] is idempotent.  It collapses every whitespace run to
    one space (a form feed is whitespace, so none is left to replace) and
    trims both ends; cleaning a cleaned text changes nothing. *)
Theorem clean_text_idempotent (x : str) :
  clean_text (clean_text x) = clean_text x
  /\ clean_text x = strip (squeeze false x).
Proof.
  split; [|apply clean_text_squeeze].
  rewrite (clean_text_squeeze (clean_text x)).
  rewrite squeeze_fixed by apply clean_text_single_spaced.
  apply stripped_fixed, clean_text_stripped.
Qed.

(** ** Section lookup *)

Local Open Scope Z_scope.

Lemma section_lookup_first table page_num pre name s e post :
  table = pre ++ (name, s, e) :: post ->
  Forall (fun r => ~ contains_page page_num r) pre ->
  s <= page_num <= e ->
  section_lookup table page_num = (display_name name, page_range_group page_num).
Proof.
  intros -> Hpre Hin. induction Hpre as [|[[n0 s0] e0] pre Hx _ IH]; simpl.
  - destruct (Z.leb_spec s page_num), (Z.leb_spec page_num e); simpl; try lia; reflexivity.
  - unfold contains_page in Hx; simpl in Hx.
    destruct (Z.leb_spec s0 page_num), (Z.leb_spec page_num e0); simpl; try lia; exact IH.
Qed.

Lemma section_lookup_none table page_num :
  Forall (fun r => ~ contains_page page_num r) table ->
  section_lookup table page_num = (Unknown, Unknown).
Proof.
  induction 1 as [|[[n0 s0] e0] pre Hx _ IH]; simpl; [reflexivity|].
  unfold contains_page in Hx; simpl in Hx.
  destruct (Z.leb_spec s0 page_num), (Z.leb_spec page_num e0); simpl; try lia; exact IH.
Qed.

(** C2: for every integer page, [get_section_info] returns the first row of
    the table whose inclusive bounds contain the page, whatever rows come
    after it, and the pair of sentinels when no row does; at the start and
    at the end of each row it returns that row's display name, and one page
    past the end the next row's name or the sentinel.  The function is
    total: no page raises. *)
Theorem get_section_info_first_match (page_num : Z) :
  (forall pre name s e post,
      SECTION_MAPPING = pre ++ (name, s, e) :: post ->
      Forall (fun r => ~ contains_page page_num r) pre ->
      s <= page_num <= e ->
      get_section_info page_num = (display_name name, page_range_group page_num))
  /\ (Forall (fun r => ~ contains_page page_num r) SECTION_MAPPING ->
      get_section_info page_num = (Unknown, Unknown))
  /\ (forall (i : nat) name s e,
      SECTION_MAPPING !! i = Some (name, s, e) ->
      (get_section_info s).1 = display_name name
      /\ (get_section_info e).1 = display_name name
      /\ (get_section_info (e + 1)).1 =
           match SECTION_MAPPING !! S i with
           | Some (next, _, _) => display_name next
           | None => Unknown
           end).
Proof.
  split; [|split].
  - intros. eapply section_lookup_first; eauto.
  - apply section_lookup_none.
  - intros i name s e Hi.
    do 12 (destruct i as [|i]; [injection Hi as <- <- <-; vm_compute; auto|]).
    discriminate Hi.
Qed.

Local Open Scope nat_scope.

(** ** Titles of cleaned text *)

Lemma split_absent sep s : sep ∉ s -> split sep s = [s].
Proof.
  induction s as [|c s IH]; intros H; [reflexivity|].
  apply not_elem_of_cons in H as [Hc Hs]. simpl.
  destruct (N.eqb_spec c sep); [congruence|]. rewrite IH by assumption. reflexivity.
Qed.

Lemma split_first sep s :
  exists l ls, split sep s = l :: ls /\ (sep ∉ l)
               /\ (s = l \/ exists rest, s = l ++ sep :: rest).
Proof.
  induction s as [|c s (l & ls & Hs & Hl & Hcase)].
  - exists [], []. repeat split; [apply not_elem_of_nil|auto].
  - simpl. destruct (N.eqb_spec c sep) as [->|Hne].
    + exists [], (split sep s). repeat split; [apply not_elem_of_nil|]. right. by exists s.
    + rewrite Hs. exists (c :: l), ls. repeat split.
      * apply not_elem_of_cons. auto.
      * destruct Hcase as [->|(rest & ->)]; [auto|]. right. by exists rest.
Qed.

Lemma clean_text_one_line text : 10%N ∉ clean_text text.
Proof.
  eapply single_spaced_no_char; [apply clean_text_single_spaced|reflexivity|discriminate].
Qed.

Lemma title_lines_one_line s :
  s <> [] -> stripped s -> 10%N ∉ s -> title_lines s = [s].
Proof.
  intros Hne Hst Hnl. unfold title_lines. rewrite split_absent by assumption.
  cbn [List.filter]. rewrite stripped_fixed by assumption.
  destruct s; [congruence|]. cbn [map]. rewrite stripped_fixed by assumption.
  reflexivity.
Qed.

(** After [clean_text] the text is one line, which alone decides the title. *)
Lemma extract_title_clean_text U raw page_num :
  extract_title U (clean_text raw) page_num =
    match clean_text raw with
    | [] => fallback_title page_num
    | _ :: _ => title_of_line U (clean_text raw) page_num
    end.
Proof.
  pose proof (clean_text_stripped raw) as Hst.
  pose proof (clean_text_one_line raw) as Hnl.
  destruct (clean_text raw) as [|c t] eqn:Ht; [reflexivity|].
  unfold extract_title. rewrite title_lines_one_line by (assumption || discriminate).
  unfold title_of_line. cbn [take List.filter].
  destruct (is_heading U (c :: t)).
  - cbn [map take join]. rewrite stripped_fixed by assumption. reflexivity.
  - cbn [map List.find].
    destruct ((10 <? length (c :: t)) && negb (startswith (c :: t) (lit "CAT")));
      reflexivity.
Qed.

Lemma lstrip_app u c v : isspace c = false -> lstrip (u ++ c :: v) = lstrip u ++ c :: v.
Proof.
  intros Hc. induction u as [|x u IH]; simpl; [by rewrite Hc|].
  destruct (isspace x); [exact IH|reflexivity].
Qed.

Lemma rstrip_app s c y : isspace c = false -> rstrip (s ++ c :: y) = s ++ c :: rstrip y.
Proof.
  intros Hc. unfold rstrip. rewrite rev_app_distr. simpl rev. rewrite <- app_assoc.
  simpl. rewrite lstrip_app by assumption.
  rewrite rev_app_distr. simpl. rewrite rev_involutive, <- app_assoc. reflexivity.
Qed.

Lemma startswith_str_in s p : startswith s p = true -> str_in p s = true.
Proof. intros H. destruct s; simpl in *; rewrite H; reflexivity. Qed.

Lemma clean_text_heavy raw :
  head (split 10%N raw) = Some HEAVY -> exists rest, clean_text raw = HEAVY ++ rest.
Proof.
  intros Hhd. destruct (split_first 10%N raw) as (l & ls & Hs & _ & Hcase).
  rewrite Hs in Hhd. injection Hhd as ->. rewrite clean_text_squeeze.
  assert (Hstrip : forall y, strip (HEAVY ++ y) = HEAVY ++ rstrip y).
  { intros y. unfold strip.
    change (HEAVY ++ y) with (lit "HEAVY DUTY CONCRETE ANCHOR SYSTE" ++ 77%N :: y).
    change (lstrip (lit "HEAVY DUTY CONCRETE ANCHOR SYSTE" ++ 77%N :: y))
      with (lit "HEAVY DUTY CONCRETE ANCHOR SYSTE" ++ 77%N :: y).
    apply rstrip_app. reflexivity. }
  destruct Hcase as [->|(rest & ->)].
  - exists (rstrip []). rewrite <- Hstrip. rewrite app_nil_r. reflexivity.
  - exists (rstrip (32%N :: squeeze true rest)). rewrite <- Hstrip. reflexivity.
Qed.

(** C9: when the first line of the raw text is
    HEAVY DUTY CONCRETE ANCHOR SYSTEM, the title [process_pdf] computes
    (cleaning, then [extract_title], any page number and any Unicode table)
    contains that phrase, whichever rule selects it. *)
Theorem heavy_duty_title U raw page_num :
  head (split 10%N raw) = Some HEAVY ->
  str_in HEAVY (extract_title U (clean_text raw) page_num) = true.
Proof.
  intros Hhd. destruct (clean_text_heavy raw Hhd) as (rest & Hclean).
  rewrite extract_title_clean_text, Hclean.
  change (HEAVY ++ rest) with (72%N :: tail HEAVY ++ rest) at 1. cbv iota.
  apply startswith_str_in. unfold title_of_line.
  destruct (is_heading U (HEAVY ++ rest)).
  - destruct (80 <? length (HEAVY ++ rest)); reflexivity.
  - reflexivity.
Qed.

(** ** Products are distinct and capped *)

Lemma fold_left_invariant {A B} (P : A -> Prop) (f : A -> B -> A) l a :
  (forall a x, P a -> P (f a x)) -> P a -> P (fold_left f l a).
Proof. intros Hf. revert a. induction l as [|x l IH]; simpl; auto. Qed.

Lemma add_match_NoDup products m : NoDup products -> NoDup (add_match products m).
Proof.
  intros Hnd. unfold add_match.
  destruct ((4 <? length (strip m)) && (length (strip m) <? 60)); [|assumption].
  destruct (decide _) as [|Hnew]; [assumption|].
  apply NoDup_app. repeat split; [assumption| |apply NoDup_singleton].
  intros x Hx Hx'. apply list_elem_of_singleton in Hx'. congruence.
Qed.

Lemma scan_line_NoDup U products line : NoDup products -> NoDup (scan_line U products line).
Proof.
  intros Hnd. unfold scan_line.
  destruct (length (strip line) <? 4); [assumption|].
  destruct (is_table_header U (strip line)); [assumption|].
  apply fold_left_invariant; [|assumption].
  intros a pattern Ha. apply fold_left_invariant; [|assumption].
  intros; by apply add_match_NoDup.
Qed.

Lemma all_products_NoDup U text : NoDup (all_products U text).
Proof.
  unfold all_products. apply fold_left_invariant; [|constructor].
  intros; by apply scan_line_NoDup.
Qed.

(** C5: for every text, [extract_products] returns at most 10 entries and no
    entry twice (equality of strings is equality of their code points). *)
Theorem extract_products_bounded_distinct (U : unicode_db) (text : str) :
  length (extract_products U text) <= 10 /\ NoDup (extract_products U text).
Proof.
  unfold extract_products. split.
  - rewrite length_take. lia.
  - eapply sublist_NoDup; [apply all_products_NoDup|apply sublist_take].
Qed.

(** ** Words found by the keyword pattern *)

Lemma rep_match_inv p min prev s n k r :
  rep_match p min prev s n k = Some r ->
  exists j prev', min <= j /\ (forall c, c ∈ take j s -> p c = true)
                  /\ k prev' (drop j s) (n + j) = Some r.
Proof.
  revert min prev n. induction s as [|c s IH]; intros min prev n H.
  - simpl in H. destruct min; [|discriminate].
    exists 0, prev. rewrite Nat.add_0_r. repeat split; [lia| |exact H].
    intros c Hc. inversion Hc.
  - cbn [rep_match] in H.
    assert (Hstop : match min with 0 => k prev (c :: s) n | S _ => None end = Some r ->
                    exists j prev', min <= j /\ (forall x, x ∈ take j (c :: s) -> p x = true)
                                    /\ k prev' (drop j (c :: s)) (n + j) = Some r).
    { intros Hk. destruct min; [|discriminate].
      exists 0, prev. rewrite Nat.add_0_r. repeat split; [lia| |exact Hk].
      intros x Hx. inversion Hx. }
    destruct (p c) eqn:Hc; [|auto].
    destruct (rep_match p (Nat.pred min) (Some c) s (S n) k) as [r'|] eqn:Hrec; [|auto].
    injection H as ->. apply IH in Hrec as (j & prev' & Hmin & Hall & Hk).
    exists (S j), prev'. repeat split; [lia| |].
    + intros x Hx. cbn [take] in Hx. apply elem_of_cons in Hx as [->|Hx]; auto.
    + cbn [drop]. rewrite <- Hk. f_equal. lia.
Qed.

Lemma word_pattern_az iw prev s m :
  match_here iw word_pattern prev s = Some m -> forall c, c ∈ take m s -> is_az c = true.
Proof.
  unfold match_here, word_pattern. cbn [re_match].
  destruct (xorb _ _); [|discriminate].
  intros H. apply rep_match_inv in H as (j & prev' & _ & Hall & Hk).
  destruct (xorb _ _); [|discriminate]. injection Hk as <-. exact Hall.
Qed.

Lemma findall_from_matches iw r prev s skip w :
  w ∈ findall_from iw r prev s skip ->
  exists prev' s' m, match_here iw r prev' s' = Some m /\ w = take m s'.
Proof.
  revert prev skip. induction s as [|c s IH]; intros prev skip H.
  - cbn [findall_from] in H. destruct skip; [|inversion H].
    destruct (match_here iw r prev []) as [m|] eqn:Hm; [|inversion H].
    apply list_elem_of_singleton in H as ->. exists prev, [], m. split; [assumption|].
    by destruct m.
  - cbn [findall_from] in H. destruct skip as [|n]; [|eauto].
    destruct (match_here iw r prev (c :: s)) as [m|] eqn:Hm; [|eauto].
    apply elem_of_cons in H as [->|H]; eauto.
Qed.

Lemma lower_words_az U s w c : w ∈ lower_words U s -> c ∈ w -> is_az c = true.
Proof.
  intros Hw Hc. apply findall_from_matches in Hw as (prev & s' & m & Hm & ->).
  eapply word_pattern_az; eauto.
Qed.

(** Where the members of the keyword set come from. *)
Lemma keyword_set_origin U text title products k :
  k ∈ keyword_set U text title products ->
  (k ∈ common_terms /\ str_in k (lower U text) = true)
  \/ (k ∈ lower_words U title /\ k ∉ title_stop_words)
  \/ exists product, product ∈ products /\ k ∈ take 3 (lower_words U product).
Proof.
  unfold keyword_set.
  set (terms := fold_left _ common_terms ∅).
  set (words := list_to_set _).
  intros H.
  assert (Hprod : forall ps (init : gset (str)),
             k ∈ fold_left (fun keywords product =>
                              keywords ∪ list_to_set (take 3 (lower_words U product)))
                           ps init ->
             k ∈ init \/ exists product, product ∈ ps /\ k ∈ take 3 (lower_words U product)).
  { induction ps as [|p ps IH]; intros init Hk; [auto|].
    simpl in Hk. apply IH in Hk as [Hk|(p' & Hp' & Hk)].
    - apply elem_of_union in Hk as [Hk|Hk]; [auto|].
      right. exists p. split; [left|]. by apply elem_of_list_to_set in Hk.
    - right. exists p'. split; [by right|assumption]. }
  apply Hprod in H as [H|H]; [|auto].
  apply elem_of_union in H as [H|H].
  - left. subst terms.
    assert (Hterms : forall ts (init : gset (str)),
               k ∈ fold_left (fun keywords term =>
                                if str_in term (lower U text)
                                then keywords ∪ {[ term ]} else keywords) ts init ->
               k ∈ init \/ (k ∈ ts /\ str_in k (lower U text) = true)).
    { induction ts as [|t ts IH]; intros init Hk; [auto|].
      simpl in Hk. apply IH in Hk as [Hk|[Hk Hin]].
      - destruct (str_in t (lower U text)) eqn:Ht; [|auto].
        apply elem_of_union in Hk as [Hk|Hk]; [auto|].
        apply elem_of_singleton in Hk as ->. right. split; [left|assumption].
      - right. split; [by right|assumption]. }
    apply Hterms in H as [H|H]; [|assumption]. by apply not_elem_of_empty in H.
  - right; left. subst words. apply elem_of_list_to_set in H.
    apply list_elem_of_In, filter_In in H as [H Hstop].
    split; [by apply list_elem_of_In|].
    apply negb_true_iff, bool_decide_eq_false in Hstop. exact Hstop.
Qed.

Lemma extract_keywords_subset U text title products k :
  k ∈ extract_keywords U text title products -> k ∈ keyword_set U text title products.
Proof.
  unfold extract_keywords, sorted. intros H.
  apply elem_of_take in H as (i & H & _). apply list_elem_of_lookup_2 in H.
  rewrite merge_sort_Permutation in H. by apply elem_of_elements in H.
Qed.

(** C10: every character of every keyword is one of [a-z] or a space, for
    every text, title and product list: vocabulary terms are lowercase
    literals and the other keywords are matches of [[a-z]{4,}].  Hence no
    keyword has an uppercase letter, for any table in which these
    characters are not uppercase. *)
Theorem keywords_lowercase (U : unicode_db) (text title : str) (products : list str)
    (k : str) (c : N) :
  (forall x, is_az x = true \/ x = 32%N -> isupper U x = false) ->
  k ∈ extract_keywords U text title products ->
  c ∈ k ->
  (is_az c = true \/ c = 32%N) /\ isupper U c = false.
Proof.
  intros Hup Hk Hc.
  assert (Haz : is_az c = true \/ c = 32%N); [|auto].
  apply extract_keywords_subset, keyword_set_origin in Hk as [[Hk _]|[[Hk _]|(p & _ & Hk)]].
  - assert (Hterms : forallb (forallb (fun x => is_az x || (x =? 32)%N)) common_terms = true)
      by reflexivity.
    rewrite forallb_forall in Hterms. apply list_elem_of_In in Hk, Hc.
    specialize (Hterms k Hk). rewrite forallb_forall in Hterms.
    apply Hterms, orb_true_iff in Hc as [Hc|Hc]; [auto|].
    right. by apply N.eqb_eq.
  - left. eapply lower_words_az; eauto.
  - left. apply elem_of_take in Hk as (i & Hk & _). apply list_elem_of_lookup_2 in Hk.
    eapply lower_words_az; eauto.
Qed.

(** ** Keywords are the smallest members of the keyword set *)

Lemma str_leb_le a b : str_leb a b = true <-> str_le a b.
Proof.
  revert b. induction a as [|x a IH]; intros [|y b]; simpl; try tauto.
  - split; [discriminate|tauto].
  - rewrite orb_true_iff, andb_true_iff, N.ltb_lt, N.eqb_eq, IH. tauto.
Qed.

Lemma str_le_refl a : str_le a a.
Proof. induction a; simpl; auto. Qed.

Lemma str_le_total a b : str_le a b \/ str_le b a.
Proof.
  revert b. induction a as [|x a IH]; intros [|y b]; simpl; auto.
  destruct (N.lt_trichotomy x y) as [H|[->|H]]; auto.
  destruct (IH b); auto.
Qed.

Lemma str_le_trans a b c : str_le a b -> str_le b c -> str_le a c.
Proof.
  revert b c. induction a as [|x a IH]; intros [|y b] [|z c]; simpl; auto; try tauto.
  intros [H1|[-> H1]] [H2|[-> H2]]; eauto using N.lt_trans.
Qed.

Lemma str_le_antisym a b : str_le a b -> str_le b a -> a = b.
Proof.
  revert b. induction a as [|x a IH]; intros [|y b]; simpl; auto; try tauto.
  intros [H1|[-> H1]] [H2|[H H2]]; try (exfalso; lia); subst; f_equal; auto.
Qed.

Lemma sorted_Permutation l : sorted l ≡ₚ l.
Proof. apply merge_sort_Permutation. Qed.

Lemma sorted_StronglySorted l : StronglySorted str_le (sorted l).
Proof.
  assert (Htrans : Transitive (fun a b : str => Is_true (str_leb a b))).
  { intros a b c Hab Hbc. apply Is_true_true, str_leb_le.
    apply Is_true_true, str_leb_le in Hab, Hbc. eapply str_le_trans; eauto. }
  assert (Htotal : Total (fun a b : str => Is_true (str_leb a b))).
  { intros a b. destruct (str_le_total a b) as [H|H]; [left|right];
      by apply Is_true_true, str_leb_le. }
  pose proof (StronglySorted_merge_sort (fun a b : str => Is_true (str_leb a b)) l) as Hs.
  fold (sorted l) in Hs. induction Hs as [|x k Hk IH Hx]; constructor; [assumption|].
  eapply Forall_impl; [exact Hx|]. intros y Hy. by apply str_leb_le, Is_true_true.
Qed.

Lemma StronglySorted_strict (l : list str) :
  StronglySorted str_le l -> NoDup l -> StronglySorted str_lt l.
Proof.
  induction 1 as [|x l Hl IH Hx]; intros Hnd; constructor.
  - apply IH. by apply NoDup_cons in Hnd as [_ ?].
  - apply NoDup_cons in Hnd as [Hin _]. rewrite Forall_forall in Hx |- *.
    intros y Hy. split; [auto|]. intros ->. contradiction.
Qed.

(** C4: for every text, title and product list the keywords are strictly
    ascending in the order of [str] (so sorted and free of duplicates), at
    most 15, and they are the smallest members of the keyword set: all of
    the set when it has at most 15 members, and otherwise 15 of them, each
    below every member left out. *)
Theorem extract_keywords_smallest (U : unicode_db) (text title : str)
    (products : list str) :
  let keywords := keyword_set U text title products in
  let result := extract_keywords U text title products in
  StronglySorted str_lt result
  /\ NoDup result
  /\ length result <= 15
  /\ length result = Nat.min 15 (size keywords)
  /\ (forall k, k ∈ result -> k ∈ keywords)
  /\ (forall k k', k ∈ keywords -> k ∉ result -> k' ∈ result -> str_lt k' k).
Proof.
  intros keywords result.
  pose proof (sorted_StronglySorted (elements keywords)) as Hss.
  pose proof (sorted_Permutation (elements keywords)) as Hperm.
  assert (Hnd : NoDup (sorted (elements keywords))).
  { rewrite Hperm. apply NoDup_elements. }
  assert (Hres : result = take 15 (sorted (elements keywords))) by reflexivity.
  rewrite <- (take_drop 15 (sorted (elements keywords))), <- Hres in Hss, Hnd.
  assert (Hndr : NoDup result) by (apply NoDup_app in Hnd; tauto).
  split; [|split; [|split; [|split; [|split]]]].
  - apply StronglySorted_strict; [|assumption]. eapply StronglySorted_app_1_l, Hss.
  - assumption.
  - rewrite Hres, length_take. lia.
  - rewrite Hres, length_take, Hperm. reflexivity.
  - intros k Hk. by apply extract_keywords_subset.
  - intros k k' Hk Hout Hin.
    assert (Hdrop : k ∈ drop 15 (sorted (elements keywords))).
    { apply elem_of_elements in Hk. rewrite <- Hperm in Hk.
      rewrite <- (take_drop 15 (sorted (elements keywords))), <- Hres in Hk.
      apply elem_of_app in Hk as [Hk|Hk]; [contradiction|assumption]. }
    split; [eapply StronglySorted_app_1_elem_of; eauto|].
    intros ->. contradiction.
Qed.

(** ** The section index *)

Lemma process_pdf_section U raw page_num :
  section (process_pdf U raw page_num) = (get_section_info page_num).1.
Proof. unfold process_pdf. destruct (get_section_info page_num). reflexivity. Qed.

(** The groups after the loop over the files. *)
Lemma section_groups_pages U pdf_files :
  forall entries0 groups0,
    let '(entries, groups) := fold_left (process_step U) pdf_files (entries0, groups0) in
    forall section,
      default [] (groups !! section) =
        default [] (groups0 !! section) ++ pages_of section pdf_files.
Proof.
  induction pdf_files as [|[page_num raw] files IH]; intros entries0 groups0.
  - simpl. intros section. by rewrite app_nil_r.
  - cbn [fold_left process_step].
    specialize (IH (entries0 ++ [process_pdf U raw page_num])
                   (<[ section (process_pdf U raw page_num) :=
                         default [] (groups0 !! section (process_pdf U raw page_num))
                         ++ [page_num] ]> groups0)).
    destruct (fold_left _ _ _) as [entries groups]. intros s. rewrite IH.
    rewrite process_pdf_section. unfold pages_of. cbn [map List.filter fst].
    destruct (decide ((get_section_info page_num).1 = s)) as [<-|Hne].
    + rewrite lookup_insert_eq, bool_decide_eq_true_2 by reflexivity.
      simpl. by rewrite <- app_assoc.
    + rewrite lookup_insert_ne, bool_decide_eq_false_2 by assumption. reflexivity.
Qed.

Lemma index_step_dom groups table :
  forall init,
    dom (fold_left (index_step groups) table init)
    = dom init ∪ list_to_set (display_names table).
Proof.
  induction table as [|[[name s] e] table IH]; intros init; simpl.
  - by rewrite (right_id_L ∅ (∪)).
  - rewrite IH, dom_insert_L.
    by rewrite (comm_L (∪) {[ display_name name ]} (dom init)), <- (assoc_L (∪)).
Qed.

Lemma index_step_other groups table key :
  key ∉ display_names table ->
  forall init, fold_left (index_step groups) table init !! key = init !! key.
Proof.
  induction table as [|[[n0 s0] e0] table IH]; intros Hout init; [reflexivity|].
  simpl in *. apply not_elem_of_cons in Hout as [Hne Hout].
  rewrite IH by assumption. by rewrite lookup_insert_ne.
Qed.

(** The index built from a table: one entry per displayed name. *)
Lemma build_section_index_dom table groups :
  dom (build_section_index table groups) = list_to_set (display_names table).
Proof.
  unfold build_section_index. rewrite index_step_dom, dom_empty_L. by rewrite (left_id_L ∅ (∪)).
Qed.

Lemma build_section_index_lookup table groups name s e :
  NoDup (display_names table) ->
  (name, s, e) ∈ table ->
  build_section_index table groups !! display_name name =
    Some {| range := str_of_Z s ++ [en_dash] ++ str_of_Z e;
            pages := default [] (groups !! display_name name) |}.
Proof.
  unfold build_section_index. generalize (∅ : gmap (str) section_entry).
  induction table as [|[[n0 s0] e0] table IH]; intros init Hnd Hin; [inversion Hin|].
  simpl in Hnd. apply NoDup_cons in Hnd as [Hfresh Hnd].
  apply elem_of_cons in Hin as [Heq|Hin].
  - injection Heq as <- <- <-. cbn [fold_left].
    rewrite index_step_other by assumption. apply lookup_insert_eq.
  - cbn [fold_left]. by apply IH.
Qed.

Lemma display_names_NoDup : NoDup (display_names SECTION_MAPPING).
Proof. apply (bool_decide_unpack _). by vm_compute. Qed.

Lemma section_lookup_name table page_num :
  (section_lookup table page_num).1 ∈ display_names table
  \/ (section_lookup table page_num).1 = Unknown.
Proof.
  induction table as [|[[n0 s0] e0] table IH]; [by right|].
  cbn [section_lookup display_names map].
  destruct ((s0 <=? page_num)%Z && (page_num <=? e0)%Z).
  - left. left.
  - destruct IH as [IH|IH]; [left; by right|by right].
Qed.

(** In a table of disjoint rows with distinct names, a page resolves to a
    row exactly when the row contains it. *)
Lemma section_lookup_row table page_num name s e :
  NoDup (display_names table) ->
  Unknown ∉ display_names table ->
  disjoint_rows table = true ->
  (name, s, e) ∈ table ->
  (section_lookup table page_num).1 = display_name name <-> (s <= page_num <= e)%Z.
Proof.
  induction table as [|[[n0 s0] e0] table IH]; intros Hnd Hunk Hdis Hin; [inversion Hin|].
  cbn [display_names map] in Hnd, Hunk. fold (display_names table) in Hnd, Hunk.
  apply NoDup_cons in Hnd as [Hfresh Hnd].
  apply not_elem_of_cons in Hunk as [Hne Hunk].
  cbn [disjoint_rows] in Hdis. apply andb_true_iff in Hdis as [Hrest Hdis].
  rewrite forallb_forall in Hrest.
  cbn [section_lookup].
  destruct (decide (s0 <= page_num <= e0)%Z) as [Hc|Hc].
  - replace ((s0 <=? page_num)%Z && (page_num <=? e0)%Z) with true
      by (symmetry; apply andb_true_iff; split; apply Z.leb_le; lia).
    cbn [fst]. apply elem_of_cons in Hin as [Heq|Hin].
    + injection Heq as -> -> ->. tauto.
    + split.
      * intros Heq. exfalso. apply Hfresh. cbn [fst snd]. rewrite Heq.
        apply (list_elem_of_fmap_2 (fun r => display_name r.1.1) _ _ Hin).
      * intros Hp. exfalso. apply list_elem_of_In, Hrest in Hin. simpl in Hin. lia.
  - replace ((s0 <=? page_num)%Z && (page_num <=? e0)%Z) with false
      by (destruct (Z.leb_spec s0 page_num), (Z.leb_spec page_num e0);
          simpl; try reflexivity; lia).
    apply elem_of_cons in Hin as [Heq|Hin].
    + injection Heq as -> -> ->. split; [|lia].
      intros Heq. exfalso.
      destruct (section_lookup_name table page_num) as [Hn|Hn]; rewrite Heq in Hn.
      * by apply Hfresh.
      * by apply Hne.
    + by apply IH.
Qed.

Lemma Unknown_not_displayed : Unknown ∉ display_names SECTION_MAPPING.
Proof.
  apply (bool_decide_eq_false_1 (Unknown ∈ display_names SECTION_MAPPING)).
  by vm_compute.
Qed.

Lemma pages_of_between name s e pdf_files :
  (name, s, e) ∈ SECTION_MAPPING ->
  pages_of (display_name name) pdf_files = pages_between s e pdf_files.
Proof.
  intros Hin. unfold pages_of, pages_between.
  induction (map fst pdf_files) as [|page_num l IH]; [reflexivity|].
  cbn [List.filter]. rewrite IH.
  pose proof (section_lookup_row SECTION_MAPPING page_num name s e
                display_names_NoDup Unknown_not_displayed eq_refl Hin) as Hrow.
  fold (get_section_info page_num) in Hrow.
  destruct (decide (s <= page_num <= e)%Z) as [Hc|Hc].
  - rewrite bool_decide_eq_true_2 by (by apply Hrow).
    replace ((s <=? page_num)%Z && (page_num <=? e)%Z) with true
      by (symmetry; apply andb_true_iff; split; apply Z.leb_le; lia).
    reflexivity.
  - rewrite bool_decide_eq_false_2 by (by rewrite Hrow).
    replace ((s <=? page_num)%Z && (page_num <=? e)%Z) with false
      by (destruct (Z.leb_spec s page_num), (Z.leb_spec page_num e);
          simpl; try reflexivity; lia).
    reflexivity.
Qed.

(** C8: for every run, the section index has exactly the displayed names of
    the fixed table as keys, one entry for each of the 12 sections; the
    entry of a section holds its range string and the pages of the run
    inside its range, in page order, so an empty list when the run has no
    such page; and there is no entry for the sentinel, whatever pages the
    run has. *)
Theorem section_index_covers_table (U : unicode_db) (found : list (Z * str)) :
  let section_index := (main U found).2 in
  dom section_index = list_to_set (display_names SECTION_MAPPING)
  /\ size section_index = length SECTION_MAPPING
  /\ (forall name s e,
        (name, s, e) ∈ SECTION_MAPPING ->
        section_index !! display_name name =
          Some {| range := str_of_Z s ++ [en_dash] ++ str_of_Z e;
                  pages := pages_between s e (sort_by_page found) |})
  /\ (forall name s e,
        (name, s, e) ∈ SECTION_MAPPING ->
        pages_between s e (sort_by_page found) = [] ->
        exists r, section_index !! display_name name = Some r /\ pages r = [])
  /\ section_index !! Unknown = None.
Proof.
  intros section_index. subst section_index. unfold main.
  pose proof (section_groups_pages U (sort_by_page found) [] ∅) as Hgroups.
  destruct (fold_left _ _ _) as [entries groups]. cbn [snd].
  assert (Hdom : dom (build_section_index SECTION_MAPPING groups)
                 = list_to_set (display_names SECTION_MAPPING))
    by apply build_section_index_dom.
  assert (Hlookup : forall name s e,
        (name, s, e) ∈ SECTION_MAPPING ->
        build_section_index SECTION_MAPPING groups !! display_name name =
          Some {| range := str_of_Z s ++ [en_dash] ++ str_of_Z e;
                  pages := pages_between s e (sort_by_page found) |}).
  { intros name s e Hin.
    rewrite (build_section_index_lookup _ _ name s e display_names_NoDup Hin).
    rewrite Hgroups, lookup_empty. cbn [default app].
    by rewrite (pages_of_between name s e). }
  split; [exact Hdom|]. split; [|split; [exact Hlookup|split]].
  - rewrite <- size_dom, Hdom, size_list_to_set by apply display_names_NoDup.
    unfold display_names. by rewrite length_map.
  - intros name s e Hin Hnone. eexists. split; [by apply Hlookup|]. exact Hnone.
  - apply not_elem_of_dom. rewrite Hdom. rewrite elem_of_list_to_set.
    apply Unknown_not_displayed.
Qed.

(** ** Pages without text *)

Lemma keyword_set_empty_text U title :
  lower U [] = [] ->
  keyword_set U [] title [] = list_to_set (title_keywords U title).
Proof.
  intros Hlower. unfold keyword_set. rewrite Hlower. cbn [fold_left].
  change (fold_left _ common_terms ∅) with (∅ : gset (str)).
  by rewrite (left_id_L ∅ (∪)).
Qed.

(** C6: when the text of a page is empty the record is still complete: no
    products, the summary of a page without signals, the title made of
    section and page number, and keywords drawn from the words of that
    title alone (no vocabulary term occurs in an empty text); for page 10
    the title is Fastener Anchoring Systems – Page 10. *)
Theorem empty_text_entry (U : unicode_db) (page_num : Z) :
  lower U [] = [] ->
  process_pdf U [] page_num =
    {| page := page_num;
       filename := lit "ocr_trim_page_" ++ format_04d page_num ++ lit ".pdf";
       thumbnail := lit "thumbnails/page_" ++ format_04d page_num ++ lit ".png";
       section := (get_section_info page_num).1;
       pageRangeGroup := (get_section_info page_num).2;
       title := (get_section_info page_num).1 ++ dash_sep ++ lit "Page "
                ++ str_of_Z page_num;
       products := [];
       keywords :=
         take 15 (sorted (elements (list_to_set (C := gset (str))
           (title_keywords U ((get_section_info page_num).1 ++ dash_sep
                              ++ lit "Page " ++ str_of_Z page_num)))));
       summary := lit "This page includes product information." |}
  /\ title (process_pdf U [] 10) =
       lit "Fastener Anchoring Systems " ++ [en_dash] ++ lit " Page 10".
Proof.
  intros Hlower. split.
  - unfold process_pdf. destruct (get_section_info page_num) as [sec grp] eqn:Hs.
    change (clean_text []) with ([] : str).
    change (extract_products U []) with ([] : list str).
    change (extract_title U [] page_num)
      with ((get_section_info page_num).1 ++ dash_sep ++ lit "Page " ++ str_of_Z page_num).
    rewrite Hs. cbn [fst snd]. f_equal.
    + unfold extract_keywords. by rewrite keyword_set_empty_text.
    + unfold generate_summary. rewrite Hlower. reflexivity.
  - reflexivity.
Qed.

(** Page 10 without text, on the ASCII tables. *)
Lemma empty_text_entry_witness :
  lower ascii_db [] = []
  /\ keywords (process_pdf ascii_db [] 10)
     = [lit "anchoring"; lit "fastener"; lit "systems"].
Proof.
  split; [reflexivity|].
  destruct (empty_text_entry ascii_db 10 eq_refl) as [-> _].
  vm_compute. reflexivity.
Defined.

(** ** Evaluations and witnesses *)

(** C1: [process_pdf] does not take headings from the lines of the raw
    text.  On the two-line page the first raw line is a heading and
    [extract_title] on the raw text returns it, but after [clean_text] the
    page is one line that is no heading, and the title is the whole page.
    On the 31-line page no raw line is a heading, yet the title holds the
    word of line 31. *)
Theorem title_not_from_raw_lines :
  is_heading ascii_db (lit "HEAVY DUTY ANCHORS") = true
  /\ extract_title ascii_db two_line_page 10 = lit "HEAVY DUTY ANCHORS"
  /\ title (process_pdf ascii_db two_line_page 10)
     = lit "HEAVY DUTY ANCHORS this line is lowercase body text of the page"
  /\ length (split 10%N long_page) = 31
  /\ nth 30 (split 10%N long_page) [] = lit "ZEBRA"
  /\ List.filter (is_heading ascii_db) (take 30 (title_lines long_page)) = []
  /\ extract_title ascii_db long_page 10
     = lit "Fastener Anchoring Systems " ++ [en_dash] ++ lit " Page 10"
  /\ title (process_pdf ascii_db long_page 10)
     = lit "A A A A A A A A A A A A A A A A A A A A A A A A A A A A A A ZEBRA".
Proof. vm_compute. repeat split. Qed.






(** Pages 74 (second row), 299 (no row), 3 and 73 (bounds of the first row). *)
Lemma get_section_info_first_match_witness :
  get_section_info 74 = (lit "Fastening Systems", lit "Pages 70" ++ [en_dash] ++ lit "79")
  /\ get_section_info 299 = (Unknown, Unknown)
  /\ (get_section_info 3).1 = lit "Fastener Anchoring Systems"
  /\ (get_section_info 73).1 = lit "Fastener Anchoring Systems".
Proof.
  destruct (get_section_info_first_match 74) as (Hfirst & _ & _).
  destruct (get_section_info_first_match 299) as (_ & Hnone & Hrow).
  split; [|split].
  - rewrite (Hfirst [(lit "Fastener_Anchoring_Systems", 3, 73)%Z]
               (lit "Fastening_Systems") 74%Z 91%Z (drop 2 SECTION_MAPPING)).
    + reflexivity.
    + reflexivity.
    + repeat constructor. unfold contains_page. simpl. lia.
    + lia.
  - apply Hnone. unfold SECTION_MAPPING, contains_page.
    repeat constructor; simpl; lia.
  - destruct (Hrow 0 (lit "Fastener_Anchoring_Systems") 3%Z 73%Z eq_refl) as (-> & -> & _).
    split; reflexivity.
Defined.

(** The heading followed by a line of body text. *)
Lemma heavy_duty_title_witness :
  str_in HEAVY
    (extract_title ascii_db
       (clean_text (HEAVY ++ [10%N] ++ lit "Wedge anchors for cracked concrete")) 12)
  = true.
Proof. apply heavy_duty_title. reflexivity. Defined.

(** The letter d of the keyword drill, on the ASCII tables. *)
Lemma keywords_lowercase_witness :
  (is_az 100 = true \/ 100%N = 32%N) /\ isupper ascii_db 100 = false.
Proof.
  apply (keywords_lowercase ascii_db (lit "Cordless DRILL") (lit "Hammer Drills")
           [lit "DW-1234X"] (lit "drill") 100%N).
  - intros x [Hx| ->]; [|reflexivity].
    unfold is_az, in_range in Hx. simpl. unfold is_AZ, in_range.
    apply andb_true_iff in Hx as [H1 H2]. apply N.leb_le in H1, H2.
    apply andb_false_iff. right. apply N.leb_gt. lia.
  - vm_compute. right. left.
  - vm_compute. left.
Defined.

(** Eighteen candidates: fifteen are kept, and wrench, left out, is above
    saw, the last one kept. *)
Lemma extract_keywords_smallest_witness :
  length (extract_keywords ascii_db many_terms [] []) = 15
  /\ str_lt (lit "saw") (lit "wrench").
Proof.
  destruct (extract_keywords_smallest ascii_db many_terms [] [])
    as (_ & _ & _ & Hlen & _ & Hout).
  split.
  - rewrite Hlen. vm_compute. reflexivity.
  - apply Hout.
    + apply (bool_decide_unpack _). vm_compute. exact I.
    + apply (bool_decide_unpack _). vm_compute. exact I.
    + apply (bool_decide_unpack _). vm_compute. exact I.
Defined.

(** A run of three pages; page 300 lies outside every section. *)
Lemma section_index_covers_table_witness :
  let found := [(75%Z, lit "Coil nailer"); (5%Z, lit "WEDGE ANCHORS"); (300%Z, [])] in
  (main ascii_db found).2 !! lit "Fastening Systems"
    = Some {| range := lit "74" ++ [en_dash] ++ lit "91"; pages := [75%Z] |}
  /\ (exists r, (main ascii_db found).2 !! lit "Ladders" = Some r /\ pages r = [])
  /\ section (process_pdf ascii_db [] 300) = Unknown
  /\ (main ascii_db found).2 !! Unknown = None.
Proof.
  intros found.
  destruct (section_index_covers_table ascii_db found)
    as (_ & _ & Hrow & Hempty & Hunknown).
  split; [|split; [|split]].
  - apply (Hrow (lit "Fastening_Systems") 74%Z 91%Z). by vm_compute; right; left.
  - apply (Hempty (lit "Ladders") 132%Z 134%Z); [|reflexivity].
    vm_compute. do 5 right. left.
  - reflexivity.
  - exact Hunknown.
Defined.

(** ** Coverage of the section table *)

Lemma section_lookup_cases table page_num :
  (exists name s e, (name, s, e) ∈ table /\ (s <= page_num <= e)%Z
      /\ section_lookup table page_num = (display_name name, page_range_group page_num))
  \/ (Forall (fun r => ~ contains_page page_num r) table
      /\ section_lookup table page_num = (Unknown, Unknown)).
Proof.
  induction table as [|[[n0 s0] e0] table IH]; [right; split; [constructor|reflexivity]|].
  cbn [section_lookup].
  destruct (decide (s0 <= page_num <= e0)%Z) as [Hc|Hc].
  - replace ((s0 <=? page_num)%Z && (page_num <=? e0)%Z) with true
      by (symmetry; apply andb_true_iff; split; apply Z.leb_le; lia).
    left. exists n0, s0, e0. split; [left|auto].
  - replace ((s0 <=? page_num)%Z && (page_num <=? e0)%Z) with false
      by (destruct (Z.leb_spec s0 page_num), (Z.leb_spec page_num e0);
          simpl; try reflexivity; lia).
    destruct IH as [(n & s & e & Hin & Hr & Heq)|[Hall Heq]].
    + left. exists n, s, e. split; [by right|auto].
    + right. split; [constructor; assumption|assumption].
Qed.

Lemma page_range_group_not_Unknown page_num : page_range_group page_num <> Unknown.
Proof. unfold page_range_group. discriminate. Qed.

(** X1: the table has no gap: a page resolves to the sentinel section
    exactly when it lies below 3 or above 298; the page range group is the
    sentinel exactly when the section is; and for every page from 3 to 298
    the group is the label of the ten pages [lo .. lo + 9] around the page,
    [lo] a multiple of 10. *)
Theorem get_section_info_coverage (page_num : Z) :
  ((get_section_info page_num).1 = Unknown <-> (page_num < 3 \/ 298 < page_num)%Z)
  /\ ((get_section_info page_num).2 = Unknown <-> (get_section_info page_num).1 = Unknown)
  /\ ((3 <= page_num <= 298)%Z ->
      exists lo, (get_section_info page_num).2
                 = lit "Pages " ++ str_of_Z lo ++ [en_dash] ++ str_of_Z (lo + 9)
                 /\ (lo mod 10 = 0)%Z /\ (lo <= page_num <= lo + 9)%Z).
Proof.
  unfold get_section_info.
  destruct (section_lookup_cases SECTION_MAPPING page_num)
    as [(n & s & e & Hin & Hr & Heq)|[Hall Heq]]; rewrite Heq; cbn [fst snd].
  - assert (Hname : display_name n <> Unknown).
    { intros Hn. apply Unknown_not_displayed. rewrite <- Hn.
      apply (list_elem_of_fmap_2 (fun r => display_name r.1.1) _ _ Hin). }
    assert (Hrange : (3 <= page_num <= 298)%Z).
    { unfold SECTION_MAPPING in Hin. rewrite !elem_of_cons in Hin.
      repeat (destruct Hin as [Hin|Hin]; [injection Hin as -> -> ->; lia|]).
      inversion Hin. }
    split; [split; [contradiction|lia]|].
    split; [split; [intros H; by apply page_range_group_not_Unknown in H|contradiction]|].
    intros _. exists (page_num / 10 * 10)%Z. split; [reflexivity|].
    pose proof (Z.div_mod page_num 10) as Hd. pose proof (Z.mod_pos_bound page_num 10).
    split; [apply Z.mod_mul; lia|lia].
  - assert (Hout : (page_num < 3 \/ 298 < page_num)%Z).
    { unfold SECTION_MAPPING in Hall. rewrite !Forall_cons in Hall.
      unfold contains_page in Hall. simpl in Hall. lia. }
    split; [tauto|]. split; [tauto|]. lia.
Qed.

(** ** What cleaning keeps *)

Lemma filter_all_space t :
  Forall (fun c => isspace c = true) t -> List.filter nonspace t = [].
Proof.
  induction 1 as [|c t Hc _ IH]; [reflexivity|].
  simpl. unfold nonspace at 1. rewrite Hc. exact IH.
Qed.

Lemma squeeze_nonspace b s : List.filter nonspace (squeeze b s) = List.filter nonspace s.
Proof.
  revert b. induction s as [|c s IH]; intros b; [reflexivity|].
  cbn [squeeze List.filter]. unfold nonspace at 2. destruct (isspace c) eqn:Hc; simpl.
  - destruct b; [apply IH|]. cbn [List.filter]. apply IH.
  - unfold nonspace at 1. rewrite Hc. simpl. f_equal. apply IH.
Qed.

Lemma squeeze_length b s : length (squeeze b s) <= length s.
Proof.
  revert b. induction s as [|c s IH]; intros b; [reflexivity|].
  pose proof (IH true). pose proof (IH false).
  cbn [squeeze]. destruct (isspace c); [destruct b|]; simpl; lia.
Qed.

Lemma strip_nonspace s : List.filter nonspace (strip s) = List.filter nonspace s.
Proof.
  unfold strip.
  destruct (lstrip_split s) as (t & Ht & Hall).
  destruct (rstrip_split (lstrip s)) as (t' & Ht' & Hall').
  rewrite Ht at 2. rewrite Ht' at 2.
  rewrite !List.filter_app, (filter_all_space t), (filter_all_space t') by assumption.
  by rewrite app_nil_r.
Qed.

Lemma strip_length s : length (strip s) <= length s.
Proof.
  unfold strip.
  destruct (lstrip_split s) as (t & Ht & _).
  destruct (rstrip_split (lstrip s)) as (t' & Ht' & _).
  rewrite Ht at 2. rewrite Ht' at 2. rewrite !length_app. lia.
Qed.

Lemma clean_text_nonspace x :
  List.filter nonspace (clean_text x) = List.filter nonspace x.
Proof. by rewrite clean_text_squeeze, strip_nonspace, squeeze_nonspace. Qed.

(** X2: [clean_text] keeps every character that is not whitespace, in
    order, and never makes a text longer. *)
Theorem clean_text_keeps_text (x : str) :
  List.filter nonspace (clean_text x) = List.filter nonspace x
  /\ length (clean_text x) <= length x.
Proof.
  split; [apply clean_text_nonspace|]. rewrite clean_text_squeeze.
  - pose proof (strip_length (squeeze false x)). pose proof (squeeze_length false x). lia.
Qed.

Lemma single_spaced_adjacent b s i x y :
  single_spaced b s -> s !! i = Some x -> s !! S i = Some y ->
  ~ (isspace x = true /\ isspace y = true).
Proof.
  revert b i. induction s as [|c s IH]; intros b i Hs Hx Hy; [discriminate|].
  cbn [single_spaced] in Hs. destruct i as [|i].
  - injection Hx as ->. destruct s as [|d s]; [discriminate|]. injection Hy as ->.
    intros [Hx Hy]. rewrite Hx in Hs. destruct Hs as (_ & _ & Hs).
    cbn [single_spaced] in Hs. rewrite Hy in Hs. destruct Hs as (_ & ? & _). discriminate.
  - destruct (isspace c); [destruct Hs as (_ & _ & Hs)|]; eapply IH; eauto.
Qed.

Lemma stripped_head s c : stripped s -> head s = Some c -> isspace c = false.
Proof.
  intros [Hl _] Hh. pose proof (lstrip_head s) as H. rewrite Hl in H.
  destruct s; [discriminate|]. injection Hh as ->. exact H.
Qed.

Lemma stripped_last s c : stripped s -> last s = Some c -> isspace c = false.
Proof.
  intros [_ Hr] Hh. pose proof (lstrip_head (rev s)) as H. rewrite Hr in H.
  destruct s as [|x s] using rev_ind; [discriminate|].
  rewrite last_snoc in Hh. injection Hh as ->. rewrite rev_app_distr in H. exact H.
Qed.

(** X3: the shape of a cleaned text: its only whitespace characters are
    spaces, no two of them are adjacent, and it neither starts nor ends
    with one; and a text is left unchanged by [clean_text] exactly when
    it has this shape. *)
Theorem clean_text_shape (x : str) :
  let y := clean_text x in
  (forall c, c ∈ y -> isspace c = true -> c = 32%N)
  /\ (forall i a b, y !! i = Some a -> y !! S i = Some b ->
        ~ (isspace a = true /\ isspace b = true))
  /\ (forall c, head y = Some c -> isspace c = false)
  /\ (forall c, last y = Some c -> isspace c = false)
  /\ (clean_text x = x <-> single_spaced false x /\ stripped x).
Proof.
  intros y. subst y.
  pose proof (clean_text_single_spaced x) as Hss.
  pose proof (clean_text_stripped x) as Hst.
  split; [intros c; by apply single_spaced_chars with (b := false)|].
  split; [intros i a b; by apply single_spaced_adjacent with (b := false)|].
  split; [intros c; by apply stripped_head|].
  split; [intros c; by apply stripped_last|].
  split.
  - intros Heq. rewrite Heq in Hss, Hst. auto.
  - intros [H1 H2]. rewrite clean_text_squeeze, squeeze_fixed by assumption.
    by apply stripped_fixed.
Qed.

Lemma filter_nonspace_nil s :
  List.filter nonspace s = [] <-> forall c, c ∈ s -> isspace c = true.
Proof.
  induction s as [|x s IH]; simpl.
  - split; [intros _ c Hc; inversion Hc|reflexivity].
  - unfold nonspace at 1. destruct (isspace x) eqn:Hx; simpl.
    + rewrite IH. split.
      * intros H c Hc. apply elem_of_cons in Hc as [->|Hc]; auto.
      * intros H c Hc. apply H. by right.
    + split; [discriminate|]. intros H. specialize (H x (list_elem_of_here _ _)). congruence.
Qed.

(** X4: a text is cleaned to the empty string exactly when all its
    characters are whitespace, and [process_pdf] then builds the record of
    a page without text. *)
Theorem blank_text_is_empty (U : unicode_db) (raw : str) (page_num : Z) :
  (clean_text raw = [] <-> forall c, c ∈ raw -> isspace c = true)
  /\ ((forall c, c ∈ raw -> isspace c = true) ->
      process_pdf U raw page_num = process_pdf U [] page_num).
Proof.
  assert (Hiff : clean_text raw = [] <-> forall c, c ∈ raw -> isspace c = true).
  { rewrite <- filter_nonspace_nil, <- clean_text_nonspace, filter_nonspace_nil.
    split; [intros ->; intros c Hc; inversion Hc|].
    intros Hall. pose proof (clean_text_stripped raw) as Hst.
    destruct (clean_text raw) as [|c t] eqn:Ht; [reflexivity|].
    specialize (Hall c (list_elem_of_here _ _)).
    rewrite (stripped_head (c :: t) c Hst eq_refl) in Hall. discriminate Hall. }
  split; [exact Hiff|].
  intros Hall. apply Hiff in Hall. unfold process_pdf. rewrite Hall. reflexivity.
Qed.

(** Page 247 is in the group of pages 240 to 249. *)
Lemma get_section_info_coverage_witness :
  exists lo, (get_section_info 247).2
             = lit "Pages " ++ str_of_Z lo ++ [en_dash] ++ str_of_Z (lo + 9)
             /\ (lo mod 10 = 0)%Z /\ (lo <= 247 <= lo + 9)%Z.
Proof. apply (get_section_info_coverage 247). lia. Defined.

(** A text of two words and one space is already clean. *)
Lemma clean_text_shape_witness : clean_text (lit "wedge anchor") = lit "wedge anchor".
Proof.
  apply (clean_text_shape (lit "wedge anchor")). split.
  - vm_compute. repeat split.
  - split; reflexivity.
Defined.

(** A page of spaces, a tab and line breaks. *)
Lemma blank_text_is_empty_witness :
  process_pdf ascii_db (lit "  " ++ [9; 10; 12; 10]%N) 42
  = process_pdf ascii_db [] 42.
Proof.
  apply (blank_text_is_empty ascii_db (lit "  " ++ [9; 10; 12; 10]%N) 42).
  intros c Hc. apply list_elem_of_In in Hc. simpl in Hc.
  repeat (destruct Hc as [<-|Hc]; [reflexivity|]). destruct Hc.
Defined.

(** ** The page as one line *)

Lemma process_pdf_title U raw page_num :
  title (process_pdf U raw page_num) = extract_title U (clean_text raw) page_num.
Proof. unfold process_pdf. destruct (get_section_info page_num). reflexivity. Qed.

Lemma process_pdf_products U raw page_num :
  products (process_pdf U raw page_num) = extract_products U (clean_text raw).
Proof. unfold process_pdf. destruct (get_section_info page_num). reflexivity. Qed.

(** X5: in [process_pdf] the title rules see the whole cleaned page as one
    line.  When that line passes the heading test the title is the page
    text, cut to 77 characters and an ellipsis if it is longer than 80;
    when it does not, the title is the first 80 characters of the page,
    unless the page has at most 10 characters or starts with CAT, and then
    it is the section and page number. *)
Theorem process_pdf_title_rules (U : unicode_db) (raw : str) (page_num : Z) :
  let text := clean_text raw in
  let t := title (process_pdf U raw page_num) in
  (is_heading U text = true ->
     t = if 80 <? length text then take 77 text ++ lit "..." else text)
  /\ (is_heading U text = false -> 10 < length text ->
      startswith text (lit "CAT") = false -> t = take 80 text)
  /\ (is_heading U text = false ->
      length text <= 10 \/ startswith text (lit "CAT") = true ->
      t = (get_section_info page_num).1 ++ dash_sep ++ lit "Page " ++ str_of_Z page_num).
Proof.
  intros text t. subst t text.
  rewrite process_pdf_title, extract_title_clean_text.
  destruct (clean_text raw) as [|c s] eqn:HT.
  - split; [discriminate|]. split; [simpl; lia|reflexivity].
  - rewrite <- HT. unfold title_of_line. split; [intros ->; reflexivity|].
    split.
    + intros -> Hlen Hcat. rewrite Hcat.
      destruct (Nat.ltb_spec 10 (length (clean_text raw))); [reflexivity|lia].
    + intros -> [Hlen|Hcat].
      * destruct (Nat.ltb_spec 10 (length (clean_text raw))); [lia|reflexivity].
      * rewrite Hcat, andb_false_r. reflexivity.
Qed.

Lemma all_products_clean_text U raw :
  all_products U (clean_text raw) = scan_line U [] (clean_text raw).
Proof.
  unfold all_products. rewrite split_absent by apply clean_text_one_line. reflexivity.
Qed.

(** X6: in [process_pdf] the product patterns too see the page as one line:
    a page whose cleaned text has fewer than 4 characters, or whose
    uppercase form contains a table header marker anywhere, has no
    products at all. *)
Theorem process_pdf_products_one_line (U : unicode_db) (raw : str) (page_num : Z) :
  let text := clean_text raw in
  products (process_pdf U raw page_num) = take 10 (scan_line U [] text)
  /\ (length text < 4 -> products (process_pdf U raw page_num) = [])
  /\ (is_table_header U text = true -> products (process_pdf U raw page_num) = []).
Proof.
  intros text. subst text. rewrite process_pdf_products. unfold extract_products.
  rewrite all_products_clean_text. split; [reflexivity|].
  unfold scan_line. rewrite (stripped_fixed _ (clean_text_stripped raw)).
  split.
  - intros Hlen. destruct (Nat.ltb_spec (length (clean_text raw)) 4); [reflexivity|lia].
  - intros ->. by destruct (length (clean_text raw) <? 4).
Qed.

Lemma title_lines_stripped text line : line ∈ title_lines text -> stripped line.
Proof.
  unfold title_lines. intros H. apply list_elem_of_fmap in H as (l & -> & _).
  apply strip_stripped.
Qed.

Lemma join_head sep p rest : exists tl, join sep (p :: rest) = p ++ tl.
Proof.
  destruct rest as [|q rest].
  - exists []. simpl. by rewrite app_nil_r.
  - exists (sep ++ join sep (q :: rest)). reflexivity.
Qed.

(** X7: [extract_title] never returns an empty title, and a title taken
    from the text has at most 80 characters. *)
Theorem extract_title_bounds (U : unicode_db) (text : str) (page_num : Z) :
  extract_title U text page_num <> []
  /\ (length (extract_title U text page_num) <= 80
      \/ extract_title U text page_num
         = (get_section_info page_num).1 ++ dash_sep ++ lit "Page " ++ str_of_Z page_num).
Proof.
  unfold extract_title.
  destruct (map strip (List.filter (is_heading U) (take 30 (title_lines text))))
    as [|h hs] eqn:Hh.
  - destruct (List.find _ _) as [line|] eqn:Hf.
    + apply find_some in Hf as [_ Hlen]. apply andb_true_iff in Hlen as [Hlen _].
      apply Nat.ltb_lt in Hlen. split.
      * destruct line; [simpl in Hlen; lia|discriminate].
      * left. rewrite length_take. lia.
    + split; [|by right]. intros H.
      apply app_eq_nil in H as [_ H]. apply app_eq_nil in H as [H _]. discriminate H.
  - assert (Hne : h <> []).
    { assert (Hin : h ∈ map strip (List.filter (is_heading U) (take 30 (title_lines text))))
        by (rewrite Hh; left).
      apply list_elem_of_fmap in Hin as (l & -> & Hl).
      apply list_elem_of_In, filter_In in Hl as [Hl Hhead].
      apply list_elem_of_In, subseteq_take, title_lines_stripped in Hl.
      rewrite stripped_fixed by assumption.
      unfold is_heading in Hhead. apply andb_true_iff in Hhead as [Hhead _].
      apply andb_true_iff in Hhead as [Hlen _]. apply Nat.ltb_lt in Hlen.
      destruct l; [simpl in Hlen; lia|discriminate]. }
    destruct (join_head dash_sep h (take 1 hs)) as (tl & Hj).
    cbn [take].
    destruct (Nat.ltb_spec 80 (length (join dash_sep (h :: take 1 hs)))) as [Hlong|Hshort].
    + split.
      * intros H. apply app_eq_nil in H as [_ H]. discriminate H.
      * left. rewrite length_app, length_take.
        change (length (lit "...")) with 3. lia.
    + split; [|by left]. rewrite Hj. destruct h; [congruence|discriminate].
Qed.

(** A page of body text: the title is the page itself. *)
Lemma process_pdf_title_rules_witness :
  title (process_pdf ascii_db (lit "Wedge anchors" ++ [10%N] ++ lit "for concrete") 12)
  = lit "Wedge anchors for concrete".
Proof.
  destruct (process_pdf_title_rules ascii_db
              (lit "Wedge anchors" ++ [10%N] ++ lit "for concrete") 12) as (_ & Hline & _).
  rewrite Hline; [reflexivity|reflexivity|vm_compute; lia|reflexivity].
Defined.

(** A product line followed by a line with a header marker. *)
Lemma process_pdf_products_one_line_witness :
  extract_products ascii_db (lit "Cordless Drill Kit") = [lit "Cordless Drill Kit"]
  /\ products (process_pdf ascii_db
                 (lit "Cordless Drill Kit" ++ [10%N] ++ lit "Qty 4") 12) = [].
Proof.
  split; [reflexivity|].
  apply (process_pdf_products_one_line ascii_db
           (lit "Cordless Drill Kit" ++ [10%N] ++ lit "Qty 4") 12).
  reflexivity.
Defined.

(** ** Products and the lines that are read *)

Lemma fold_left_invariant_in {A B} (P : A -> Prop) (f : A -> B -> A) l a :
  (forall a x, x ∈ l -> P a -> P (f a x)) -> P a -> P (fold_left f l a).
Proof.
  revert a. induction l as [|x l IH]; intros a Hf Ha; [exact Ha|].
  simpl. apply IH.
  - intros a' y Hy. apply Hf. by right.
  - apply Hf; [left|exact Ha].
Qed.

Lemma infix_refl s : infix s s.
Proof. exists [], []. simpl. by rewrite app_nil_r. Qed.

Lemma infix_trans u v w : infix u v -> infix v w -> infix u w.
Proof.
  intros (a & b & ->) (c & d & ->). exists (c ++ a), (b ++ d).
  by rewrite <- !app_assoc.
Qed.

Lemma infix_cons w c s : infix w s -> infix w (c :: s).
Proof. intros (a & b & ->). by exists (c :: a), b. Qed.

Lemma strip_infix s : infix (strip s) s.
Proof.
  unfold strip.
  destruct (lstrip_split s) as (t & Ht & _).
  destruct (rstrip_split (lstrip s)) as (t' & Ht' & _).
  exists t, t'. rewrite <- Ht'. exact Ht.
Qed.

Lemma single_spaced_suffix b a s : single_spaced b (a ++ s) -> single_spaced false s.
Proof.
  revert b. induction a as [|c a IH]; intros b; [apply single_spaced_weaken|].
  simpl. destruct (isspace c); [intros (_ & _ & H)|intros H]; eapply IH, H.
Qed.

Lemma single_spaced_infix b w s : single_spaced b s -> infix w s -> single_spaced false w.
Proof.
  intros Hs (a & c & ->). apply single_spaced_suffix in Hs.
  eapply single_spaced_app, Hs.
Qed.

(** Every match of [findall] is a run of consecutive characters of the text. *)
Lemma findall_from_infix iw r prev s skip w :
  w ∈ findall_from iw r prev s skip -> infix w s.
Proof.
  revert prev skip. induction s as [|c s IH]; intros prev skip H.
  - cbn [findall_from] in H. destruct skip; [|inversion H].
    destruct (match_here iw r prev []); [|inversion H].
    apply list_elem_of_singleton in H as ->. apply infix_refl.
  - cbn [findall_from] in H. destruct skip as [|n]; [|eapply infix_cons, IH, H].
    destruct (match_here iw r prev (c :: s)) as [m|]; [|eapply infix_cons, IH, H].
    apply elem_of_cons in H as [->|H]; [|eapply infix_cons, IH, H].
    exists [], (drop m (c :: s)). simpl app. by rewrite take_drop.
Qed.

Lemma squeeze_snoc b s c : isspace c = false -> squeeze b (s ++ [c]) = squeeze b s ++ [c].
Proof.
  intros Hc. revert b. induction s as [|x s IH]; intros b; simpl.
  - by rewrite Hc.
  - destruct (isspace x); [destruct b|]; by rewrite IH.
Qed.

Lemma squeeze_stripped m : stripped m -> stripped (squeeze false m).
Proof.
  intros Hm. split.
  - destruct m as [|c m]; [reflexivity|].
    pose proof (stripped_head (c :: m) c Hm eq_refl) as Hc.
    cbn [squeeze]. rewrite Hc. cbn [lstrip]. by rewrite Hc.
  - destruct m as [|c m] using rev_ind; [reflexivity|].
    assert (Hc : isspace c = false) by (apply (stripped_last _ c Hm), last_snoc).
    rewrite squeeze_snoc, rev_app_distr by assumption. simpl. by rewrite Hc.
Qed.

Lemma add_match_Forall (Q : str -> Prop) products m :
  Forall Q products ->
  (4 < length (strip m) < 60 -> Q (squeeze false (strip m))) ->
  Forall Q (add_match products m).
Proof.
  intros Hall Hq. unfold add_match.
  destruct ((4 <? length (strip m)) && (length (strip m) <? 60)) eqn:Hlen; [|assumption].
  apply andb_true_iff in Hlen as [H1 H2]. apply Nat.ltb_lt in H1, H2.
  destruct (decide _); [assumption|].
  apply Forall_app. split; [assumption|]. constructor; [|constructor].
  rewrite sub_spaces. auto.
Qed.

Lemma scan_line_Forall (Q : str -> Prop) U products line :
  Forall Q products ->
  (forall w, infix w (strip line) -> 4 < length (strip w) < 60 ->
             Q (squeeze false (strip w))) ->
  Forall Q (scan_line U products line).
Proof.
  intros Hall Hq. unfold scan_line.
  destruct (length (strip line) <? 4); [assumption|].
  destruct (is_table_header U (strip line)); [assumption|].
  apply fold_left_invariant; [|assumption].
  intros a pattern Ha. apply fold_left_invariant_in; [|assumption].
  intros a' w Hw Ha'. apply add_match_Forall; [assumption|].
  apply Hq. eapply findall_from_infix, Hw.
Qed.

(** X8: every product is non-empty, shorter than 60 characters and already
    clean: its whitespace is single spaces between other characters, so
    [clean_text] leaves it unchanged. *)
Theorem extract_products_shape (U : unicode_db) (text p : str) :
  p ∈ extract_products U text ->
  p <> [] /\ length p < 60 /\ clean_text p = p
  /\ (forall c, c ∈ p -> isspace c = true -> c = 32%N).
Proof.
  intros Hp. apply subseteq_take in Hp.
  assert (Hall : Forall (fun p => p <> [] /\ length p < 60
                                  /\ single_spaced false p /\ stripped p)
                        (all_products U text)).
  { unfold all_products. apply fold_left_invariant; [|constructor].
    intros a line Ha. apply scan_line_Forall; [assumption|].
    intros w _ Hlen. pose proof (strip_stripped w) as Hst.
    split; [|split; [|split]].
    - destruct (strip w) as [|c m]; [simpl in Hlen; lia|].
      cbn [squeeze]. rewrite (stripped_head (c :: m) c Hst eq_refl). discriminate.
    - pose proof (squeeze_length false (strip w)). lia.
    - apply squeeze_single_spaced.
    - by apply squeeze_stripped. }
  rewrite Forall_forall in Hall. destruct (Hall p Hp) as (Hne & Hlen & Hss & Hst).
  split; [assumption|]. split; [assumption|]. split.
  - rewrite clean_text_squeeze, squeeze_fixed by assumption. by apply stripped_fixed.
  - intros c. by apply single_spaced_chars with (b := false).
Qed.

(** X9: in [process_pdf] every product is a run of consecutive characters of
    the cleaned page text, more than 4 and fewer than 60 characters long. *)
Theorem process_pdf_products_in_text (U : unicode_db) (raw : str) (page_num : Z)
    (p : str) :
  p ∈ products (process_pdf U raw page_num) ->
  infix p (clean_text raw) /\ 4 < length p < 60.
Proof.
  rewrite process_pdf_products. unfold extract_products. intros Hp.
  apply subseteq_take in Hp. rewrite all_products_clean_text in Hp.
  assert (Hall : Forall (fun p => infix p (clean_text raw) /\ 4 < length p < 60)
                        (scan_line U [] (clean_text raw))).
  { apply scan_line_Forall; [constructor|].
    rewrite (stripped_fixed _ (clean_text_stripped raw)).
    intros w Hw Hlen.
    assert (Hin : infix (strip w) (clean_text raw))
      by (eapply infix_trans; [apply strip_infix|exact Hw]).
    rewrite squeeze_fixed; [auto|].
    eapply single_spaced_infix; [apply clean_text_single_spaced|exact Hin]. }
  rewrite Forall_forall in Hall. by apply Hall.
Qed.

Lemma split_nonempty sep s : split sep s <> [].
Proof.
  destruct s as [|c s]; [discriminate|]. simpl.
  destruct (c =? sep)%N; [discriminate|]. destruct (split sep s); discriminate.
Qed.

Lemma split_app sep a b : split sep (a ++ sep :: b) = split sep a ++ split sep b.
Proof.
  induction a as [|c a IH]; simpl.
  - by rewrite N.eqb_refl.
  - destruct (c =? sep)%N; [by rewrite IH|].
    rewrite IH. pose proof (split_nonempty sep a).
    destruct (split sep a); [congruence|reflexivity].
Qed.

Lemma title_lines_app a b : title_lines (a ++ 10%N :: b) = title_lines a ++ title_lines b.
Proof. unfold title_lines. by rewrite split_app, List.filter_app, map_app. Qed.

(** X10: [extract_products] reads the first 50 lines only: when a text has
    50 lines or more, text added after a line break changes nothing. *)
Theorem extract_products_first_50 (U : unicode_db) (text more : str) :
  50 <= length (split 10%N text) ->
  extract_products U (text ++ 10%N :: more) = extract_products U text.
Proof.
  intros Hlen. unfold extract_products, all_products.
  by rewrite split_app, take_app_le.
Qed.

(** X11: [extract_title] reads the first 30 non-blank lines only: when a
    text has 30 such lines or more, text added after a line break changes
    nothing. *)
Theorem extract_title_first_30 (U : unicode_db) (text more : str) (page_num : Z) :
  30 <= length (title_lines text) ->
  extract_title U (text ++ 10%N :: more) page_num = extract_title U text page_num.
Proof.
  intros Hlen. unfold extract_title.
  rewrite title_lines_app, !take_app_le by lia. reflexivity.
Qed.

(** A match with a run of spaces is kept for its length and then collapsed:
    the product has three characters. *)
Lemma extract_products_shape_witness :
  lit "A B" <> [] /\ length (lit "A B") < 60 /\ clean_text (lit "A B") = lit "A B"
  /\ (forall c, c ∈ lit "A B" -> isspace c = true -> c = 32%N).
Proof.
  apply (extract_products_shape ascii_db (lit "A    B") (lit "A B")).
  vm_compute. left.
Defined.

(** A product that spans a line break of the raw text. *)
Lemma process_pdf_products_in_text_witness :
  infix (lit "Cordless Drill Kit")
        (clean_text (lit "Cordless  Drill" ++ [10%N] ++ lit "Kit"))
  /\ 4 < length (lit "Cordless Drill Kit") < 60.
Proof.
  apply (process_pdf_products_in_text ascii_db
           (lit "Cordless  Drill" ++ [10%N] ++ lit "Kit") 12).
  vm_compute. left.
Defined.

(** Fifty lines, then a product line that is not read. *)
Lemma extract_products_first_50_witness :
  let text := concat (repeat (lit "x" ++ [10%N]) 49) ++ lit "y" in
  extract_products ascii_db (text ++ 10%N :: lit "Cordless Drill Kit")
  = extract_products ascii_db text.
Proof.
  intros text. apply extract_products_first_50. vm_compute. lia.
Defined.

(** Thirty lines, then a heading that is not read. *)
Lemma extract_title_first_30_witness :
  let text := concat (repeat (lit "x" ++ [10%N]) 29) ++ lit "y" in
  extract_title ascii_db (text ++ 10%N :: lit "WEDGE ANCHORS") 12
  = extract_title ascii_db text 12.
Proof.
  intros text. apply extract_title_first_30. vm_compute. lia.
Defined.

(** ** The keyword set, exactly *)

Lemma keyword_terms_fold text_lower k ts :
  forall init : gset (str),
    k ∈ fold_left (fun keywords term =>
                     if str_in term text_lower then keywords ∪ {[ term ]} else keywords)
                  ts init
    <-> k ∈ init \/ (k ∈ ts /\ str_in k text_lower = true).
Proof.
  induction ts as [|t ts IH]; intros init; simpl.
  - split; [auto|]. intros [H|[H _]]; [exact H|inversion H].
  - rewrite IH. destruct (str_in t text_lower) eqn:Ht.
    + rewrite elem_of_union, elem_of_singleton, elem_of_cons. split.
      * intros [[H| ->]|[H1 H2]]; auto.
      * intros [H|[[->|H1] H2]]; auto.
    + rewrite elem_of_cons. split.
      * intros [H|[H1 H2]]; auto.
      * intros [H|[[->|H1] H2]]; auto. congruence.
Qed.

Lemma keyword_products_fold U k ps :
  forall init : gset (str),
    k ∈ fold_left (fun keywords product =>
                     keywords ∪ list_to_set (take 3 (lower_words U product)))
                  ps init
    <-> k ∈ init \/ exists product, product ∈ ps /\ k ∈ take 3 (lower_words U product).
Proof.
  induction ps as [|p ps IH]; intros init; simpl.
  - split; [auto|]. intros [H|(p & H & _)]; [exact H|inversion H].
  - rewrite IH, elem_of_union, elem_of_list_to_set. split.
    + intros [[H|H]|(q & Hq & H)]; auto.
      * right. exists p. split; [left|exact H].
      * right. exists q. split; [by right|exact H].
    + intros [H|(q & Hq & H)]; auto.
      apply elem_of_cons in Hq as [->|Hq]; auto.
      right. by exists q.
Qed.

(** X12: the keyword set, exactly: a string is a candidate keyword when it
    is a vocabulary term that occurs in the lowercased text, or a word of
    the lowercased title other than page, pages and catalog, or one of the
    first three words of a lowercased product. *)
Theorem keyword_set_members (U : unicode_db) (text title : str)
    (products : list (str)) (k : str) :
  k ∈ keyword_set U text title products
  <-> (k ∈ common_terms /\ str_in k (lower U text) = true)
      \/ (k ∈ lower_words U title /\ k ∉ title_stop_words)
      \/ (exists product, product ∈ products /\ k ∈ take 3 (lower_words U product)).
Proof.
  assert (Hwords : forall ws : list (str),
             k ∈ (list_to_set (List.filter
                    (fun word => negb (bool_decide (word ∈ title_stop_words))) ws)
                  : gset (str))
             <-> k ∈ ws /\ k ∉ title_stop_words).
  { intros ws. rewrite elem_of_list_to_set. split.
    - intros H. apply list_elem_of_In, filter_In in H as [H Hstop].
      split; [by apply list_elem_of_In|].
      by apply negb_true_iff, bool_decide_eq_false in Hstop.
    - intros [H Hstop]. apply list_elem_of_In, filter_In.
      split; [by apply list_elem_of_In|].
      by apply negb_true_iff, bool_decide_eq_false. }
  unfold keyword_set.
  rewrite keyword_products_fold, elem_of_union, keyword_terms_fold, Hwords.
  split.
  - intros [[[H|H]|H]|H]; auto. by apply not_elem_of_empty in H.
  - intros [H|[H|H]]; auto.
Qed.

(** ** Words are at least four letters long *)

Lemma rep_match_consumed p min prev s n k r :
  rep_match p min prev s n k = Some r ->
  exists j prev', min <= j <= length s /\ k prev' (drop j s) (n + j) = Some r.
Proof.
  revert min prev n. induction s as [|c s IH]; intros min prev n H.
  - simpl in H. destruct min; [|discriminate].
    exists 0, prev. rewrite Nat.add_0_r. split; [simpl; lia|exact H].
  - cbn [rep_match] in H.
    assert (Hstop : match min with 0 => k prev (c :: s) n | S _ => None end = Some r ->
                    exists j prev', min <= j <= length (c :: s)
                                    /\ k prev' (drop j (c :: s)) (n + j) = Some r).
    { intros Hk. destruct min; [|discriminate].
      exists 0, prev. rewrite Nat.add_0_r. split; [simpl; lia|exact Hk]. }
    destruct (p c) eqn:Hc; [|auto].
    destruct (rep_match p (Nat.pred min) (Some c) s (S n) k) as [r'|] eqn:Hrec; [|auto].
    injection H as ->. apply IH in Hrec as (j & prev' & Hmin & Hk).
    exists (S j), prev'. split; [simpl; lia|].
    cbn [drop]. rewrite <- Hk. f_equal. lia.
Qed.

Lemma word_pattern_length iw prev s m :
  match_here iw word_pattern prev s = Some m -> 4 <= length (take m s).
Proof.
  unfold match_here, word_pattern. cbn [re_match].
  destruct (xorb _ _); [|discriminate].
  intros H. apply rep_match_consumed in H as (j & prev' & Hj & Hk).
  destruct (xorb _ _); [|discriminate]. injection Hk as <-.
  rewrite length_take. simpl. lia.
Qed.

Lemma lower_words_length U s w : w ∈ lower_words U s -> 4 <= length w.
Proof.
  intros Hw. apply findall_from_matches in Hw as (prev & s' & m & Hm & ->).
  eapply word_pattern_length, Hm.
Qed.

(** X13: a keyword is a vocabulary term or a word of at least four letters
    [a-z]; and page, pages and catalog are keywords only when a product
    has them among its first three words. *)
Theorem keywords_terms_or_words (U : unicode_db) (text title : str)
    (products : list (str)) (k : str) :
  k ∈ extract_keywords U text title products ->
  (k ∈ common_terms \/ (4 <= length k /\ forall c, c ∈ k -> is_az c = true))
  /\ (k ∈ title_stop_words ->
      exists product, product ∈ products /\ k ∈ take 3 (lower_words U product)).
Proof.
  intros Hk. apply extract_keywords_subset, keyword_set_origin in Hk.
  split.
  - destruct Hk as [[Hk _]|[[Hk _]|(p & _ & Hk)]]; [by left| |].
    + right. split; [eapply lower_words_length, Hk|].
      intros c. by apply lower_words_az with (U := U) (s := title).
    + apply subseteq_take in Hk. right. split; [eapply lower_words_length, Hk|].
      intros c. by apply lower_words_az with (U := U) (s := p).
  - intros Hstop. destruct Hk as [[Hk _]|[[_ Hk]|Hk]]; [|contradiction|exact Hk].
    exfalso. revert Hk.
    assert (Hnone : forallb (fun w => negb (bool_decide (w ∈ common_terms)))
                            title_stop_words = true) by (by vm_compute).
    rewrite forallb_forall in Hnone. apply list_elem_of_In, Hnone in Hstop.
    apply negb_true_iff, bool_decide_eq_false in Hstop. exact Hstop.
Qed.

(** ** Summaries *)

Lemma startswith_app s p q : startswith s (p ++ q) = true -> startswith s p = true.
Proof.
  revert s. induction p as [|a p IH]; intros s; [reflexivity|].
  destruct s as [|b s]; simpl; [discriminate|].
  rewrite !andb_true_iff. intros [? ?]. auto.
Qed.

Lemma str_in_app p q s : str_in (p ++ q) s = true -> str_in p s = true.
Proof.
  induction s as [|c s IH]; simpl; rewrite !orb_true_iff.
  - intros [H|H]; [left; eapply startswith_app, H|discriminate].
  - intros [H|H]; [left; eapply startswith_app, H|right; auto].
Qed.

(** X14: the summary depends on the products and on four signals of the
    lowercased text only (spec; accessories; model or cat #; application
    or use); the title plays no part, and the test for specifications adds
    nothing to the test for spec. *)
Theorem generate_summary_signals (U : unicode_db) (text text' title title' : str)
    (products : list (str)) :
  summary_signals U text = summary_signals U text' ->
  generate_summary U text title products = generate_summary U text' title' products.
Proof.
  unfold summary_signals. intros H. injection H as H1 H2 H3 H4.
  assert (Hspec : forall t, str_in (lit "specifications") t || str_in (lit "spec") t
                            = str_in (lit "spec") t).
  { intros t. destruct (str_in (lit "specifications") t) eqn:Hs; [|reflexivity].
    simpl. symmetry. by apply (str_in_app (lit "spec") (lit "ifications")). }
  unfold generate_summary. rewrite !Hspec, H1, H2, H3, H4. reflexivity.
Qed.

(** Page, pages and catalog come from a product only. *)
Lemma keywords_terms_or_words_witness :
  exists product, product ∈ [lit "Catalog Pages 2024"]
                  /\ lit "pages" ∈ take 3 (lower_words ascii_db product).
Proof.
  apply (keywords_terms_or_words ascii_db [] (lit "Catalog page 7")
           [lit "Catalog Pages 2024"] (lit "pages")).
  - vm_compute. right. left.
  - vm_compute. right. left.
Defined.

(** Two texts with the same signals and different titles. *)
Lemma generate_summary_signals_witness :
  generate_summary ascii_db (lit "Full SPECIFICATIONS inside") (lit "A") [lit "Drill"]
  = generate_summary ascii_db (lit "spec sheet") (lit "B") [lit "Drill"].
Proof. apply generate_summary_signals. reflexivity. Defined.

(** ** The catalogue *)

Lemma process_pdf_page U raw page_num : page (process_pdf U raw page_num) = page_num.
Proof. unfold process_pdf. destruct (get_section_info page_num). reflexivity. Qed.

Lemma process_step_entries U files :
  forall entries groups,
    (fold_left (process_step U) files (entries, groups)).1
    = entries ++ map (fun file => process_pdf U file.2 file.1) files.
Proof.
  induction files as [|[page_num raw] files IH]; intros entries groups.
  - simpl. by rewrite app_nil_r.
  - cbn [fold_left process_step]. rewrite IH, <- app_assoc. reflexivity.
Qed.

Lemma insert_by_page_Permutation x l : insert_by_page x l ≡ₚ x :: l.
Proof.
  induction l as [|y l IH]; [reflexivity|]. simpl.
  destruct (x.1 <? y.1)%Z; [reflexivity|]. rewrite IH. apply Permutation_swap.
Qed.

Lemma insert_by_page_sorted x l :
  StronglySorted (fun a b : Z * str => (a.1 <= b.1)%Z) l ->
  StronglySorted (fun a b : Z * str => (a.1 <= b.1)%Z) (insert_by_page x l).
Proof.
  induction 1 as [|y l Hl IH Hy]; simpl; [repeat constructor|].
  destruct (Z.ltb_spec x.1 y.1).
  - constructor; [by constructor|]. constructor; [lia|].
    eapply Forall_impl; [exact Hy|]. simpl. intros; lia.
  - constructor; [exact IH|]. rewrite insert_by_page_Permutation.
    constructor; [lia|exact Hy].
Qed.

Lemma insert_by_page_stable page_num x l :
  StronglySorted (fun a b : Z * str => (a.1 <= b.1)%Z) l ->
  files_of_page page_num (insert_by_page x l)
  = files_of_page page_num l ++ files_of_page page_num [x].
Proof.
  unfold files_of_page.
  induction 1 as [|y l Hl IH Hy]; [reflexivity|]. cbn [insert_by_page].
  destruct (Z.ltb_spec x.1 y.1) as [Hlt|Hge].
  - cbn [List.filter]. destruct (Z.eqb_spec x.1 page_num) as [Hx|Hx].
    + assert (Hnone : List.filter (fun file : Z * str => (file.1 =? page_num)%Z) l = []).
      { clear IH Hl. induction Hy as [|z l Hz _ IH]; [reflexivity|].
        simpl. destruct (Z.eqb_spec z.1 page_num); [lia|exact IH]. }
      destruct (Z.eqb_spec y.1 page_num); [lia|]. by rewrite Hnone.
    + by rewrite app_nil_r.
  - cbn [List.filter]. rewrite IH. by destruct (y.1 =? page_num)%Z.
Qed.

Lemma sort_by_page_fold l :
  forall acc,
    StronglySorted (fun a b : Z * str => (a.1 <= b.1)%Z) acc ->
    let sorted_files := fold_left (fun acc x => insert_by_page x acc) l acc in
    sorted_files ≡ₚ acc ++ l
    /\ StronglySorted (fun a b : Z * str => (a.1 <= b.1)%Z) sorted_files
    /\ forall page_num,
         files_of_page page_num sorted_files
         = files_of_page page_num acc ++ files_of_page page_num l.
Proof.
  induction l as [|x l IH]; intros acc Hacc; simpl.
  - rewrite app_nil_r. split; [reflexivity|]. split; [exact Hacc|].
    intros page_num. by rewrite app_nil_r.
  - destruct (IH (insert_by_page x acc) (insert_by_page_sorted x acc Hacc))
      as (Hperm & Hsorted & Hstable).
    split; [|split; [exact Hsorted|]].
    + rewrite Hperm, insert_by_page_Permutation. simpl. apply Permutation_middle.
    + intros page_num. rewrite Hstable, insert_by_page_stable by assumption.
      rewrite <- app_assoc. f_equal.
      unfold files_of_page. simpl. by destruct (x.1 =? page_num)%Z.
Qed.

(** X15: the catalogue has one entry per file found, built by
    [process_pdf] from that file alone, in ascending page order; files of
    the same page keep the order in which they were found. *)
Theorem main_catalog_sorted (U : unicode_db) (found : list (Z * str)) :
  let pdf_files := sort_by_page found in
  let catalog_entries := (main U found).1 in
  catalog_entries = map (fun file => process_pdf U file.2 file.1) pdf_files
  /\ pdf_files ≡ₚ found
  /\ length catalog_entries = length found
  /\ StronglySorted Z.le (map page catalog_entries)
  /\ (forall page_num, files_of_page page_num pdf_files = files_of_page page_num found).
Proof.
  intros pdf_files catalog_entries.
  destruct (sort_by_page_fold found [] (SSorted_nil _)) as (Hperm & Hsorted & Hstable).
  fold (sort_by_page found) in Hperm, Hsorted, Hstable. fold pdf_files in Hperm, Hsorted, Hstable.
  assert (Hcat : catalog_entries
                 = map (fun file => process_pdf U file.2 file.1) pdf_files).
  { subst catalog_entries. unfold main. fold pdf_files.
    pose proof (process_step_entries U pdf_files [] ∅) as H.
    destruct (fold_left _ _ _) as [entries groups]. exact H. }
  split; [exact Hcat|]. split; [exact Hperm|]. split; [|split; [|exact Hstable]].
  - by rewrite Hcat, length_map, Hperm.
  - rewrite Hcat, map_map.
    clear -Hsorted. induction Hsorted as [|f l Hl IH Hf]; simpl; constructor.
    + exact IH.
    + apply Forall_forall. intros p Hp.
      apply list_elem_of_fmap in Hp as (g & -> & Hg). rewrite !process_pdf_page.
      by apply (proj1 (Forall_forall _ _) Hf).
Qed.

(** ** Section index and catalogue agree *)

Lemma main_outputs U found :
  main U found
  = (map (fun file => process_pdf U file.2 file.1) (sort_by_page found),
     build_section_index SECTION_MAPPING
       (fold_left (process_step U) (sort_by_page found) ([], ∅)).2).
Proof.
  unfold main. pose proof (process_step_entries U (sort_by_page found) [] ∅) as H.
  destruct (fold_left _ _ _) as [entries groups]. simpl in *. by rewrite H.
Qed.

Lemma main_section_entry U found name s e :
  (name, s, e) ∈ SECTION_MAPPING ->
  (main U found).2 !! display_name name
  = Some {| range := str_of_Z s ++ [en_dash] ++ str_of_Z e;
            pages := pages_between s e (sort_by_page found) |}.
Proof.
  intros Hin. rewrite main_outputs. cbn [snd].
  pose proof (section_groups_pages U (sort_by_page found) [] ∅) as Hgroups.
  destruct (fold_left _ _ _) as [entries groups]. cbn [snd].
  rewrite (build_section_index_lookup _ _ name s e display_names_NoDup Hin).
  rewrite Hgroups, lookup_empty. cbn [default app].
  by rewrite (pages_of_between name s e).
Qed.

Lemma StronglySorted_filter_le f (l : list Z) :
  StronglySorted Z.le l -> StronglySorted Z.le (List.filter f l).
Proof.
  induction 1 as [|x l Hl IH Hx]; simpl; [constructor|].
  destruct (f x); [|exact IH]. constructor; [exact IH|].
  apply Forall_forall. intros y Hy. apply list_elem_of_In, filter_In in Hy as [Hy _].
  apply (proj1 (Forall_forall _ _) Hx). by apply list_elem_of_In.
Qed.

(** X16: the two outputs agree.  The pages listed under a section are in
    ascending order; a page is listed there exactly when a file of that
    page was found and the page lies in the range of the section, and
    exactly when the catalogue has an entry of that page with that
    section. *)
Theorem main_section_pages (U : unicode_db) (found : list (Z * str))
    (name : str) (s e : Z) :
  (name, s, e) ∈ SECTION_MAPPING ->
  exists r, (main U found).2 !! display_name name = Some r
    /\ StronglySorted Z.le (pages r)
    /\ (forall p, p ∈ pages r <-> p ∈ map fst found /\ (s <= p <= e)%Z)
    /\ (forall p, p ∈ pages r <->
          exists entry, entry ∈ (main U found).1 /\ page entry = p
                        /\ section entry = display_name name).
Proof.
  intros Hin. eexists. split; [by apply main_section_entry|]. cbn [pages].
  destruct (sort_by_page_fold found [] (SSorted_nil _)) as (Hperm & Hsorted & _).
  fold (sort_by_page found) in Hperm, Hsorted. simpl in Hperm.
  assert (Hmem : forall p, p ∈ pages_between s e (sort_by_page found)
                           <-> p ∈ map fst (sort_by_page found) /\ (s <= p <= e)%Z).
  { intros p. unfold pages_between.
    rewrite list_elem_of_In, filter_In, <- list_elem_of_In, andb_true_iff.
    rewrite !Z.leb_le. reflexivity. }
  split; [|split].
  - unfold pages_between. apply StronglySorted_filter_le.
    clear -Hsorted. induction Hsorted as [|f l Hl IH Hf]; simpl; constructor; [exact IH|].
    apply Forall_forall. intros p Hp. apply list_elem_of_fmap in Hp as (g & -> & Hg).
    by apply (proj1 (Forall_forall _ _) Hf).
  - intros p. rewrite Hmem. by rewrite Hperm.
  - intros p. rewrite Hmem, main_outputs. cbn [fst]. split.
    + intros [Hp Hr]. apply list_elem_of_fmap in Hp as ([q raw] & -> & Hf).
      exists (process_pdf U raw q). split; [|split].
      * apply list_elem_of_fmap. by exists (q, raw).
      * apply process_pdf_page.
      * rewrite process_pdf_section. simpl in Hr.
        apply (section_lookup_row SECTION_MAPPING q name s e
                 display_names_NoDup Unknown_not_displayed eq_refl Hin). exact Hr.
    + intros (entry & Hentry & Hpage & Hsec).
      apply list_elem_of_fmap in Hentry as ([q raw] & -> & Hf).
      rewrite process_pdf_page in Hpage. rewrite process_pdf_section in Hsec.
      simpl in Hpage, Hsec. subst q. split.
      * apply list_elem_of_fmap. by exists (p, raw).
      * by apply (section_lookup_row SECTION_MAPPING p name s e
                    display_names_NoDup Unknown_not_displayed eq_refl Hin).
Qed.

(** Three files found in no order, two of them for page 75. *)
Lemma main_section_pages_witness :
  exists r, (main ascii_db [(75%Z, lit "b"); (300%Z, []); (75%Z, lit "a"); (80%Z, [])]).2
              !! lit "Fastening Systems" = Some r
    /\ pages r = [75%Z; 75%Z; 80%Z].
Proof.
  destruct (main_section_pages ascii_db
              [(75%Z, lit "b"); (300%Z, []); (75%Z, lit "a"); (80%Z, [])]
              (lit "Fastening_Systems") 74 91) as (r & Hr & _).
  - vm_compute. right. left.
  - exists r. split; [exact Hr|].
    rewrite (main_section_entry _ _ (lit "Fastening_Systems") 74 91) in Hr
      by (vm_compute; right; left).
    injection Hr as <-. reflexivity.
Defined.

(** ** File names and page numbers *)

Lemma string_of_uint_digits d acc :
  Forall (fun c => is_09 c = true) (lit (NilEmpty.string_of_uint d))
  /\ fold_left (fun acc c => 10 * acc + default 0 (ascii_decimal c))%N
               (lit (NilEmpty.string_of_uint d)) acc
     = (DecimalPos.Unsigned.of_lu (Decimal.rev d) + acc * 10 ^ DecimalPos.Unsigned.usize d)%N.
Proof.
  revert acc.
  induction d as [|d IH|d IH|d IH|d IH|d IH|d IH|d IH|d IH|d IH|d IH]; intros acc.
  { split; [apply List.Forall_nil|]. cbn. lia. }
  all: split; [apply Forall_cons; split; [reflexivity|apply (IH 0%N)]|].
  all: cbn [NilEmpty.string_of_uint lit list_ascii_of_string map fold_left].
  all: fold (lit (NilEmpty.string_of_uint d)).
  all: rewrite (proj2 (IH _)).
  all: match goal with
       | |- context [DecimalPos.Unsigned.of_lu (Decimal.rev (?k ?d0))] =>
           change (Decimal.rev (k d0)) with (Decimal.revapp d0 (k Decimal.Nil));
           rewrite (DecimalPos.Unsigned.of_lu_revapp d0 (k Decimal.Nil))
       end.
  all: cbn [DecimalPos.Unsigned.of_lu DecimalPos.Unsigned.usize]; rewrite N.pow_succ_r' by lia.
  all: vm_compute (default _ _); lia.
Qed.

Lemma str_of_Z_nonneg z :
  (0 <= z)%Z ->
  Forall (fun c => is_09 c = true) (str_of_Z z)
  /\ str_of_Z z <> []
  /\ fold_left (fun acc c => 10 * acc + default 0 (ascii_decimal c))%N (str_of_Z z) 0%N
     = Z.to_N z.
Proof.
  intros Hz. destruct z as [|p|p]; [|clear Hz|lia].
  - split; [repeat constructor|]. split; [discriminate|reflexivity].
  - unfold str_of_Z. cbn [Z.to_int NilZero.string_of_int].
    pose proof (DecimalPos.Unsigned.to_uint_nonnil p) as Hnil.
    assert (Hs : NilZero.string_of_uint (Pos.to_uint p)
                 = NilEmpty.string_of_uint (Pos.to_uint p))
      by (unfold NilZero.string_of_uint; destruct (Pos.to_uint p); congruence).
    rewrite Hs. destruct (string_of_uint_digits (Pos.to_uint p) 0) as [Hall Hval].
    split; [exact Hall|]. split.
    + destruct (Pos.to_uint p); [congruence|discriminate..].
    + rewrite Hval, <- DecimalPos.Unsigned.of_uint_alt, DecimalPos.Unsigned.of_to. simpl. lia.
Qed.

Lemma str_of_Z_chars z :
  Forall (fun c => is_09 c = true \/ c = 45%N) (str_of_Z z).
Proof.
  destruct z as [|p|p].
  - repeat constructor.
  - destruct (str_of_Z_nonneg (Z.pos p)) as [H _]; [lia|].
    eapply Forall_impl; [exact H|]. simpl. auto.
  - unfold str_of_Z. cbn [Z.to_int NilZero.string_of_int].
    destruct (str_of_Z_nonneg (Z.pos p)) as [H _]; [lia|].
    unfold str_of_Z in H. cbn [Z.to_int NilZero.string_of_int] in H.
    change (lit (String "-" ?s)) with (45%N :: lit s).
    apply Forall_cons. split; [by right|].
    eapply Forall_impl; [exact H|]. simpl. auto.
Qed.

Lemma format_04d_nonneg z :
  (0 <= z)%Z -> format_04d z = repeat 48%N (4 - length (str_of_Z z)) ++ str_of_Z z.
Proof.
  intros Hz. unfold format_04d. rewrite Z.abs_eq by assumption.
  destruct (Z.ltb_spec z 0); [lia|]. reflexivity.
Qed.

Lemma digits_value_zeros D k (s : str) :
  D 48%N = Some 0%N ->
  fold_left (fun acc c => 10 * acc + default 0 (D c))%N (repeat 48%N k ++ s) 0%N
  = fold_left (fun acc c => 10 * acc + default 0 (D c))%N s 0%N.
Proof.
  intros H0. induction k as [|k IH]; [reflexivity|].
  cbn [repeat app fold_left]. rewrite H0. exact IH.
Qed.

Lemma digits_value_ascii D (s : str) acc :
  (forall c, (c < 128)%N -> D c = ascii_decimal c) ->
  Forall (fun c => is_09 c = true) s ->
  fold_left (fun acc c => 10 * acc + default 0 (D c))%N s acc
  = fold_left (fun acc c => 10 * acc + default 0 (ascii_decimal c))%N s acc.
Proof.
  intros HD Hs. revert acc. induction Hs as [|c s Hc _ IH]; intros acc; [reflexivity|].
  cbn [fold_left]. rewrite IH, HD; [reflexivity|].
  unfold is_09, in_range in Hc. apply andb_true_iff in Hc as [_ Hc].
  apply N.leb_le in Hc. lia.
Qed.

Lemma rep_match_greedy p min prev ds x rest n k r :
  Forall (fun c => p c = true) ds -> p x = false -> min <= length ds ->
  (forall prev', k prev' (x :: rest) (n + length ds) = Some r) ->
  rep_match p min prev (ds ++ x :: rest) n k = Some r.
Proof.
  intros Hds Hx. revert min prev n.
  induction Hds as [|c ds Hc _ IH]; intros min prev n Hmin Hk.
  - simpl in *. rewrite Hx. destruct min; [|lia]. rewrite <- (Hk prev). f_equal. lia.
  - cbn [app rep_match]. rewrite Hc.
    rewrite (IH (Nat.pred min) (Some c) (S n)); [reflexivity|simpl in Hmin; lia|].
    intros prev'. rewrite <- (Hk prev'). f_equal. simpl. lia.
Qed.

Lemma process_pdf_filename U raw page_num :
  filename (process_pdf U raw page_num)
  = lit "ocr_trim_page_" ++ format_04d page_num ++ lit ".pdf".
Proof. unfold process_pdf. destruct (get_section_info page_num). reflexivity. Qed.

Lemma page_num_of_name_digits D ds :
  (forall c, (c < 128)%N -> D c = ascii_decimal c) ->
  Forall (fun c => is_09 c = true) ds -> ds <> [] ->
  page_num_of_name D (lit "ocr_trim_page_" ++ ds ++ lit ".pdf")
  = Some (int_of_digits D ds).
Proof.
  intros HD Hds Hne. unfold page_num_of_name.
  assert (Hm : match_here (fun _ => false) (page_file_pattern D) None
                 (lit "ocr_trim_page_" ++ ds ++ lit ".pdf")
               = Some (18 + length ds)).
  { unfold match_here, page_file_pattern. cbn [re_match].
    change (lit_match (lit "ocr_trim_page_") None
              (lit "ocr_trim_page_" ++ ds ++ lit ".pdf") 0 ?K)
      with (K (Some 95%N) (ds ++ lit ".pdf") 14).
    cbv beta. cbn [re_match].
    change (ds ++ lit ".pdf") with (ds ++ 46%N :: lit "pdf").
    apply rep_match_greedy.
    - eapply Forall_impl; [exact Hds|]. intros c Hc. unfold isdecimal.
      rewrite HD; [unfold ascii_decimal; by rewrite Hc|].
      unfold is_09, in_range in Hc. apply andb_true_iff in Hc as [_ Hc].
      apply N.leb_le in Hc. lia.
    - unfold isdecimal. rewrite HD by lia. reflexivity.
    - destruct ds; [congruence|simpl; lia].
    - intros prev'. reflexivity. }
  destruct ds as [|d ds]; [congruence|].
  change (lit "ocr_trim_page_" ++ (d :: ds) ++ lit ".pdf")
    with (111%N :: tail (lit "ocr_trim_page_") ++ (d :: ds) ++ lit ".pdf") in *.
  cbn [search_from]. rewrite Hm.
  change (111%N :: tail (lit "ocr_trim_page_") ++ (d :: ds) ++ lit ".pdf")
    with (lit "ocr_trim_page_" ++ (d :: ds) ++ lit ".pdf").
  rewrite (take_ge (lit "ocr_trim_page_" ++ (d :: ds) ++ lit ".pdf"))
    by (rewrite !length_app; simpl; lia).
  rewrite !length_app.
  change (length (lit "ocr_trim_page_")) with 14. change (length (lit ".pdf")) with 4.
  change (drop 14 (lit "ocr_trim_page_" ++ (d :: ds) ++ lit ".pdf"))
    with ((d :: ds) ++ lit ".pdf").
  replace (14 + (length (d :: ds) + 4) - 18) with (length (d :: ds) + 0) by lia.
  by rewrite take_app_add, take_0, app_nil_r.
Qed.

(** X17: file names and page numbers make a round trip: the file name
    [process_pdf] writes for a page that is not negative is a name from
    which the loop over the files reads back the same page, so two such
    pages never share a file name. *)
Theorem filename_round_trip (D : N -> option N) (U : unicode_db) (raw raw' : str)
    (page_num page_num' : Z) :
  (forall c, (c < 128)%N -> D c = ascii_decimal c) ->
  (0 <= page_num)%Z ->
  page_num_of_name D (filename (process_pdf U raw page_num)) = Some page_num
  /\ ((0 <= page_num')%Z ->
      filename (process_pdf U raw page_num) = filename (process_pdf U raw' page_num') ->
      page_num = page_num').
Proof.
  intros HD Hp.
  assert (Hrt : forall V text p, (0 <= p)%Z ->
            page_num_of_name D (filename (process_pdf V text p)) = Some p).
  { intros V text p Hp0. rewrite process_pdf_filename, format_04d_nonneg by assumption.
    destruct (str_of_Z_nonneg p Hp0) as (Hall & Hne & Hval).
    rewrite page_num_of_name_digits.
    - unfold int_of_digits. rewrite digits_value_zeros by (by rewrite HD).
      rewrite (digits_value_ascii D _ 0%N HD Hall), Hval. f_equal. lia.
    - exact HD.
    - apply Forall_app. split; [|exact Hall].
      apply Forall_forall. intros c Hc. apply list_elem_of_In, repeat_spec in Hc.
      by subst c.
    - destruct (str_of_Z p); [congruence|]. by destruct (repeat 48%N _). }
  split; [by apply Hrt|].
  intros Hp' Heq. pose proof (Hrt U raw page_num Hp) as H1.
  rewrite Heq, (Hrt U raw' page_num' Hp') in H1. by injection H1.
Qed.

(** Page 10 and its file name. *)
Lemma filename_round_trip_witness :
  filename (process_pdf ascii_db [] 10) = lit "ocr_trim_page_0010.pdf"
  /\ page_num_of_name ascii_decimal (lit "ocr_trim_page_0010.pdf") = Some 10%Z.
Proof.
  split; [reflexivity|].
  apply (filename_round_trip ascii_decimal ascii_db [] [] 10 10); [reflexivity|lia].
Defined.

(** ** Titles are single lines *)

Lemma split_pieces sep s l : l ∈ split sep s -> sep ∉ l.
Proof.
  revert l. induction s as [|c s IH]; intros l Hl.
  - apply list_elem_of_singleton in Hl as ->. apply not_elem_of_nil.
  - simpl in Hl. destruct (N.eqb_spec c sep) as [->|Hne].
    + apply elem_of_cons in Hl as [->|Hl]; [apply not_elem_of_nil|by apply IH].
    + pose proof (split_nonempty sep s) as Hs.
      destruct (split sep s) as [|l0 ls]; [congruence|].
      apply elem_of_cons in Hl as [->|Hl].
      * apply not_elem_of_cons. split; [congruence|]. apply IH. left.
      * apply IH. by right.
Qed.

Lemma infix_elem w s (c : N) : infix w s -> c ∈ w -> c ∈ s.
Proof. intros (a & b & ->) Hc. rewrite !elem_of_app. auto. Qed.

Lemma title_lines_one_line_each text line : line ∈ title_lines text -> 10%N ∉ line.
Proof.
  unfold title_lines. intros H. apply list_elem_of_fmap in H as (l & -> & Hl).
  apply list_elem_of_In, filter_In in Hl as [Hl _]. apply list_elem_of_In in Hl.
  intros Hc. apply (split_pieces _ _ _ Hl). eapply infix_elem; [apply strip_infix|exact Hc].
Qed.

Lemma join_elem sep parts (c : N) :
  c ∈ join sep parts -> c ∈ sep \/ exists p, p ∈ parts /\ c ∈ p.
Proof.
  induction parts as [|p parts IH]; [intros H; inversion H|].
  destruct parts as [|q parts].
  - simpl. intros H. right. exists p. split; [left|exact H].
  - change (join sep (p :: q :: parts)) with (p ++ sep ++ join sep (q :: parts)).
    rewrite !elem_of_app. intros [H|[H|H]]; [|by left|].
    + right. exists p. split; [left|exact H].
    + destruct (IH H) as [?|(p' & Hp' & Hc)]; [by left|].
      right. exists p'. split; [by right|exact Hc].
Qed.

Lemma fallback_title_spaces page_num c :
  c ∈ fallback_title page_num -> isspace c = true -> c = 32%N.
Proof.
  unfold fallback_title. rewrite !elem_of_app. intros [H|[H|[H|H]]] Hc.
  - assert (Hall : forallb (forallb (fun x => negb (isspace x) || (x =? 32)%N))
                           (Unknown :: display_names SECTION_MAPPING) = true)
      by (by vm_compute).
    rewrite forallb_forall in Hall.
    assert (Hname : In (get_section_info page_num).1
                       (Unknown :: display_names SECTION_MAPPING)).
    { destruct (section_lookup_name SECTION_MAPPING page_num) as [Hs|Hs];
        fold (get_section_info page_num) in Hs.
      - right. by apply list_elem_of_In.
      - left. by rewrite Hs. }
    specialize (Hall _ Hname). rewrite forallb_forall in Hall.
    apply list_elem_of_In, Hall in H. rewrite Hc in H. by apply N.eqb_eq in H.
  - assert (Hall : forallb (fun x => negb (isspace x) || (x =? 32)%N) dash_sep = true)
      by (by vm_compute).
    rewrite forallb_forall in Hall.
    apply list_elem_of_In, Hall in H. rewrite Hc in H. by apply N.eqb_eq in H.
  - assert (Hall : forallb (fun x => negb (isspace x) || (x =? 32)%N) (lit "Page ") = true)
      by (by vm_compute).
    rewrite forallb_forall in Hall.
    apply list_elem_of_In, Hall in H. rewrite Hc in H. by apply N.eqb_eq in H.
  - pose proof (str_of_Z_chars page_num) as Hd. rewrite Forall_forall in Hd.
    exfalso. destruct (Hd _ H) as [Hd'| ->]; [|discriminate Hc].
    unfold is_09, in_range in Hd'. apply andb_true_iff in Hd' as [H1 H2].
    apply N.leb_le in H1, H2. revert Hc. unfold isspace.
    rewrite !orb_true_iff, !andb_true_iff, !N.leb_le, !N.eqb_eq. lia.
Qed.

(** X18: a title never contains the newline character U+000A, whatever the
    text and the page number; and the title [process_pdf] computes, from
    the cleaned text, has no whitespace character other than the space, so
    no line break of any kind. *)
Theorem extract_title_one_line (U : unicode_db) (text : str) (page_num : Z) :
  (10%N ∉ extract_title U text page_num)
  /\ (forall raw c,
        c ∈ title (process_pdf U raw page_num) -> isspace c = true -> c = 32%N).
Proof.
  split.
  {
  unfold extract_title.
  destruct (map strip (List.filter (is_heading U) (take 30 (title_lines text))))
    as [|h hs] eqn:Hh.
  - destruct (List.find _ _) as [line|] eqn:Hf.
    + apply find_some in Hf as [Hin _].
      apply list_elem_of_In, subseteq_take, title_lines_one_line_each in Hin.
      intros Hc. apply Hin. eapply subseteq_take, Hc.
    + rewrite !elem_of_app. intros [H|[H|[H|H]]].
      * destruct (section_lookup_name SECTION_MAPPING page_num) as [Hs|Hs];
          fold (get_section_info page_num) in Hs.
        -- assert (Hall : forallb (fun name => negb (bool_decide (10%N ∈ name)))
                                  (display_names SECTION_MAPPING) = true)
             by (by vm_compute).
           rewrite forallb_forall in Hall. apply list_elem_of_In, Hall in Hs.
           by apply negb_true_iff, bool_decide_eq_false in Hs.
        -- rewrite Hs in H. revert H. by apply (bool_decide_eq_false_1 (10%N ∈ Unknown)).
      * revert H. by apply (bool_decide_eq_false_1 (10%N ∈ dash_sep)).
      * revert H. by apply (bool_decide_eq_false_1 (10%N ∈ lit "Page ")).
      * pose proof (str_of_Z_chars page_num) as Hd. rewrite Forall_forall in Hd.
        destruct (Hd _ H) as [Hd'|Hd']; discriminate Hd'.
  - assert (Hjoin : 10%N ∉ join dash_sep (take 2 (h :: hs))).
    { intros Hc. apply join_elem in Hc as [Hc|(p & Hp & Hc)].
      - revert Hc. by apply (bool_decide_eq_false_1 (10%N ∈ dash_sep)).
      - apply subseteq_take in Hp. rewrite <- Hh in Hp.
        apply list_elem_of_fmap in Hp as (l & -> & Hl).
        apply list_elem_of_In, filter_In in Hl as [Hl _].
        apply list_elem_of_In, subseteq_take, title_lines_one_line_each in Hl.
        apply Hl. eapply infix_elem; [apply strip_infix|exact Hc]. }
    destruct (80 <? length (join dash_sep (take 2 (h :: hs)))); [|exact Hjoin].
    rewrite elem_of_app. intros [Hc|Hc].
    + apply Hjoin. eapply subseteq_take, Hc.
    + revert Hc. by apply (bool_decide_eq_false_1 (10%N ∈ lit "...")).
  }
  intros raw c Hin Hc. rewrite process_pdf_title, extract_title_clean_text in Hin.
  pose proof (clean_text_single_spaced raw) as Hss.
  assert (Htext : forall n, c ∈ take n (clean_text raw) -> c = 32%N).
  { intros n Hn. apply (single_spaced_chars false (clean_text raw)); [assumption| |assumption].
    eapply subseteq_take, Hn. }
  destruct (clean_text raw) as [|x t] eqn:HT; [by apply (fallback_title_spaces page_num)|].
  rewrite <- HT in *. unfold title_of_line in Hin.
  destruct (is_heading U (clean_text raw)).
  - destruct (80 <? length (clean_text raw)).
    + apply elem_of_app in Hin as [Hin|Hin]; [by apply (Htext 77)|].
      exfalso. revert Hin.
      assert (Hdots : forallb (fun y => negb (isspace y)) (lit "...") = true)
        by reflexivity.
      rewrite forallb_forall in Hdots. intros Hin.
      apply list_elem_of_In, Hdots in Hin. by rewrite Hc in Hin.
    + apply (Htext (length (clean_text raw))). by rewrite firstn_all.
  - destruct ((10 <? length (clean_text raw))
              && negb (startswith (clean_text raw) (lit "CAT"))).
    + by apply (Htext 80).
    + by apply (fallback_title_spaces page_num).
Qed.

(** ** Ranges, first headings and pages outside the table *)

(** X19: a page resolves to a section of the table exactly when it lies in
    the inclusive range of that section; so no page resolves to two
    sections. *)
Theorem get_section_info_in_range (page_num : Z) (name : str) (s e : Z) :
  (name, s, e) ∈ SECTION_MAPPING ->
  ((get_section_info page_num).1 = display_name name <-> (s <= page_num <= e)%Z)
  /\ (forall name' s' e',
        (name', s', e') ∈ SECTION_MAPPING ->
        (s <= page_num <= e)%Z -> (s' <= page_num <= e')%Z ->
        (name', s', e') = (name, s, e)).
Proof.
  intros Hin.
  assert (Hrow : forall n a b, (n, a, b) ∈ SECTION_MAPPING ->
            (get_section_info page_num).1 = display_name n <-> (a <= page_num <= b)%Z).
  { intros n a b H. by apply (section_lookup_row SECTION_MAPPING page_num n a b
                                display_names_NoDup Unknown_not_displayed eq_refl). }
  split; [by apply Hrow|].
  intros name' s' e' Hin' Hr Hr'.
  apply (Hrow name s e Hin) in Hr. apply (Hrow name' s' e' Hin') in Hr'.
  rewrite Hr in Hr'. clear -Hin Hin' Hr'.
  unfold SECTION_MAPPING in Hin, Hin'. rewrite !elem_of_cons in Hin, Hin'.
  repeat (destruct Hin as [Hin|Hin]; [injection Hin as -> -> ->|]);
    try (by inversion Hin);
    repeat (destruct Hin' as [Hin'|Hin']; [injection Hin' as -> -> ->|]);
    try (by inversion Hin'); try reflexivity; by vm_compute in Hr'.
Qed.

(** Page 100 is in Hand Tools and in no other section. *)
Lemma get_section_info_in_range_witness :
  (get_section_info 100).1 = display_name (lit "Hand_Tools").
Proof.
  apply (get_section_info_in_range 100 (lit "Hand_Tools") 100 119); [|lia].
  vm_compute. do 3 right. left.
Defined.

Lemma startswith_prefix p q : startswith (p ++ q) p = true.
Proof. induction p as [|a p IH]; [reflexivity|]. simpl. by rewrite N.eqb_refl. Qed.

(** X20: when one of the first 30 non-blank lines passes the heading test,
    the title starts with the first such line (with its first 77
    characters when the line is longer). *)
Theorem extract_title_first_heading (U : unicode_db) (text : str) (page_num : Z)
    (h : str) (hs : list (str)) :
  List.filter (is_heading U) (take 30 (title_lines text)) = h :: hs ->
  startswith (extract_title U text page_num) (take 77 h) = true.
Proof.
  intros Hh. unfold extract_title. rewrite Hh. cbn [map].
  assert (Hst : strip h = h).
  { apply stripped_fixed, (title_lines_stripped text).
    assert (Hin : h ∈ List.filter (is_heading U) (take 30 (title_lines text)))
      by (rewrite Hh; left).
    apply list_elem_of_In, filter_In in Hin as [Hin _].
    eapply subseteq_take. by apply list_elem_of_In. }
  rewrite Hst. cbn [take].
  destruct (join_head dash_sep h (take 1 (map strip hs))) as (tl & ->).
  destruct (80 <? length (h ++ tl)).
  - rewrite take_app, <- app_assoc. apply startswith_prefix.
  - rewrite <- (take_drop 77 h) at 1. rewrite <- app_assoc. apply startswith_prefix.
Qed.

(** A heading on the second line. *)
Lemma extract_title_first_heading_witness :
  startswith
    (extract_title ascii_db (lit "page 12" ++ [10%N] ++ lit "WEDGE ANCHORS") 12)
    (take 77 (lit "WEDGE ANCHORS")) = true.
Proof.
  apply (extract_title_first_heading ascii_db _ 12 (lit "WEDGE ANCHORS") []).
  reflexivity.
Defined.

(** X21: a page below 3 or above 298 gets a catalogue entry, with the
    sentinel as section and as page range group, and is listed under no
    section of the index. *)
Theorem main_unmapped_page (U : unicode_db) (found : list (Z * str)) (page_num : Z) :
  page_num ∈ map fst found ->
  (page_num < 3 \/ 298 < page_num)%Z ->
  (exists entry, entry ∈ (main U found).1 /\ page entry = page_num
                 /\ section entry = Unknown /\ pageRangeGroup entry = Unknown)
  /\ (forall key r, (main U found).2 !! key = Some r -> page_num ∉ pages r).
Proof.
  intros Hfound Hout. split.
  - destruct (sort_by_page_fold found [] (SSorted_nil _)) as (Hperm & _).
    fold (sort_by_page found) in Hperm. simpl in Hperm.
    rewrite <- Hperm in Hfound.
    apply list_elem_of_fmap in Hfound as ([q raw] & -> & Hf). simpl in Hout.
    exists (process_pdf U raw q). rewrite main_outputs. cbn [fst].
    split; [apply list_elem_of_fmap; by exists (q, raw)|].
    split; [apply process_pdf_page|].
    assert (Hs : get_section_info q = (Unknown, Unknown)).
    { apply section_lookup_none. unfold SECTION_MAPPING, contains_page.
      repeat (apply Forall_cons; split; [simpl; lia|]). apply List.Forall_nil. }
    unfold process_pdf. rewrite Hs. split; reflexivity.
  - intros key r Hr Hp.
    assert (Hkey : key ∈ display_names SECTION_MAPPING).
    { apply (elem_of_list_to_set (C := gset (str))). rewrite main_outputs in Hr. cbn [snd] in Hr.
      rewrite <- (build_section_index_dom SECTION_MAPPING
                    (fold_left (process_step U) (sort_by_page found) ([], ∅)).2).
      apply elem_of_dom. by exists r. }
    apply list_elem_of_fmap in Hkey as ([[name s] e] & -> & Hrow). simpl in Hr.
    rewrite (main_section_entry U found name s e Hrow) in Hr. injection Hr as <-.
    cbn [pages] in Hp. unfold pages_between in Hp.
    apply list_elem_of_In, filter_In in Hp as [_ Hp].
    apply andb_true_iff in Hp as [H1 H2]. apply Z.leb_le in H1, H2.
    clear -Hrow H1 H2 Hout. unfold SECTION_MAPPING in Hrow. rewrite !elem_of_cons in Hrow.
    repeat (destruct Hrow as [Hrow|Hrow]; [injection Hrow as -> -> ->; lia|]).
    inversion Hrow.
Qed.

(** Page 300 of a run of two pages. *)
Lemma main_unmapped_page_witness :
  exists entry, entry ∈ (main ascii_db [(300%Z, lit "Index"); (5%Z, [])]).1
                /\ page entry = 300%Z
                /\ section entry = Unknown /\ pageRangeGroup entry = Unknown.
Proof.
  apply (main_unmapped_page ascii_db [(300%Z, lit "Index"); (5%Z, [])] 300).
  - vm_compute. left.
  - lia.
Defined.

(** ** How products start *)

Lemma lit_match_progress l prev s n k m :
  lit_match l prev s n k = Some m ->
  exists prev' s' n', n <= n' /\ k prev' s' n' = Some m.
Proof.
  revert prev s n. induction l as [|a l IH]; intros prev s n H.
  - simpl in H. destruct s; eauto.
  - destruct s as [|c s]; [discriminate|]. simpl in H.
    destruct (a =? c)%N; [|discriminate].
    apply IH in H as (prev' & s' & n' & Hn & Hk). exists prev', s', n'. split; [lia|auto].
Qed.

(** The matcher only moves forward: a match is at least as long as what
    was matched when a pattern is entered. *)
Lemma re_match_progress iw r :
  forall prev s n k m,
    re_match iw r prev s n k = Some m ->
    exists prev' s' n', n <= n' /\ k prev' s' n' = Some m.
Proof.
  induction r as [p|p min|l|r1 IH1 r2 IH2|r1 IH1 r2 IH2|]; intros prev s n k m H;
    cbn [re_match] in H.
  - destruct s as [|c s]; [discriminate|]. destruct (p c); [|discriminate].
    exists (Some c), s, (S n). split; [lia|auto].
  - apply rep_match_consumed in H as (j & prev' & _ & Hk).
    exists prev', (drop j s), (n + j). split; [lia|auto].
  - by apply lit_match_progress in H.
  - destruct (re_match iw r1 prev s n k) eqn:H1; [injection H as ->|]; eauto.
  - apply IH1 in H as (prev1 & s1 & n1 & Hn1 & H).
    apply IH2 in H as (prev2 & s2 & n2 & Hn2 & H).
    exists prev2, s2, n2. split; [lia|auto].
  - destruct (xorb _ _); [|discriminate]. eauto.
Qed.

Lemma product_pattern_start pattern prev s m :
  pattern ∈ product_patterns ->
  match_here (fun _ => false) pattern prev s = Some m ->
  exists c w, take m s = c :: w /\ product_start c = true.
Proof.
  unfold product_patterns. rewrite !elem_of_cons. unfold match_here.
  intros [->|[->|[->|H]]] Hm; [| | |inversion H].
  - cbn [re_match] in Hm. destruct s as [|c s]; [discriminate|].
    destruct (is_AZ c) eqn:Hc; [|discriminate].
    apply rep_match_consumed in Hm as (j & ? & _ & Hk).
    apply re_match_progress in Hk as (? & ? & n' & Hn & Hk).
    injection Hk as <-. destruct n'; [lia|].
    exists c, (take n' s). split; [reflexivity|]. unfold product_start. by rewrite Hc.
  - cbn [re_match] in Hm. destruct s as [|c s]; [discriminate|].
    destruct (is_AZ c) eqn:Hc; [|discriminate].
    apply rep_match_consumed in Hm as (j & ? & _ & Hk). injection Hk as <-.
    exists c, (take j s). split; [reflexivity|]. unfold product_start. by rewrite Hc.
  - cbn [re_match] in Hm. apply rep_match_inv in Hm as (j & prev' & Hj & Hall & Hk).
    destruct s as [|c s]; [destruct j; discriminate|].
    destruct (drop j (c :: s)) as [|c' s'] eqn:Hd; [discriminate|].
    destruct (is_AZ c' || is_09 c'); [|discriminate]. injection Hk as <-.
    exists c, (take j s). split; [reflexivity|].
    destruct j as [|j]; [lia|]. unfold product_start.
    rewrite (Hall c) by left. reflexivity.
Qed.

Lemma product_start_nonspace c : product_start c = true -> isspace c = false.
Proof.
  unfold product_start, is_AZ, is_09, in_range, isspace.
  rewrite !orb_true_iff, !andb_true_iff, !N.leb_le, N.eqb_eq. intros H.
  repeat (apply orb_false_iff; split); try apply andb_false_iff;
    rewrite ?N.leb_gt, ?N.eqb_neq; lia.
Qed.

Lemma strip_head c w : isspace c = false -> exists w', strip (c :: w) = c :: w'.
Proof.
  intros Hc. unfold strip. cbn [lstrip]. rewrite Hc.
  exists (rstrip w). apply (rstrip_app [] c w Hc).
Qed.

(** X22: every product starts with an uppercase letter [A-Z], a digit or a
    hyphen; no product starts with a lowercase letter or a space. *)
Theorem extract_products_start (U : unicode_db) (text p : str) :
  p ∈ extract_products U text ->
  exists c rest, p = c :: rest /\ product_start c = true.
Proof.
  intros Hp. apply subseteq_take in Hp. revert p Hp. apply Forall_forall.
  unfold all_products. apply fold_left_invariant; [|constructor].
  intros products line Hall. unfold scan_line.
  destruct (length (strip line) <? 4); [assumption|].
  destruct (is_table_header U (strip line)); [assumption|].
  apply fold_left_invariant_in; [|assumption].
  intros a pattern Hpat Ha. apply fold_left_invariant_in; [|assumption].
  intros a' w Hw Ha'. apply add_match_Forall; [assumption|]. intros _.
  apply findall_from_matches in Hw as (prev & s' & m & Hm & ->).
  destruct (product_pattern_start pattern prev s' m Hpat Hm) as (c & w' & -> & Hc).
  destruct (strip_head c w' (product_start_nonspace c Hc)) as (w'' & ->).
  cbn [squeeze]. rewrite (product_start_nonspace c Hc). eauto.
Qed.

(** A model number after lowercase text. *)
Lemma extract_products_start_witness :
  exists c rest, lit "DW-1234X" = c :: rest /\ product_start c = true.
Proof.
  apply (extract_products_start ascii_db (lit "with the DW-1234X drill")).
  vm_compute. left.
Defined.

(** A page with a carriage return and a line separator inside its lines:
    after cleaning, the title has a space in their place. *)
Lemma extract_title_one_line_witness :
  let raw := lit "Wedge" ++ [13; 8232]%N ++ lit "anchors" in
  title (process_pdf ascii_db raw 12) = lit "Wedge anchors"
  /\ (13%N ∉ title (process_pdf ascii_db raw 12))
  /\ (8232%N ∉ title (process_pdf ascii_db raw 12)).
Proof.
  intros raw.
  destruct (extract_title_one_line ascii_db [] 12) as [_ Hspaces].
  split; [reflexivity|]. split; intros Hin.
  - discriminate (Hspaces raw 13%N Hin eq_refl).
  - discriminate (Hspaces raw 8232%N Hin eq_refl).
Defined.
